(** * Debate and alignment runners: the gateway, the extractor and the
      orchestrators of [debate_eval.py] and [debate_nojudge.py]

    The two scripts share [chat_once] and [force_json] verbatim (only the
    unused default temperature differs) and differ in the orchestrator
    ([run_single_debate] / [run_single_alignment]), in [save_run_log] and in
    the bookkeeping of [main].

    Conventions of the embedding
    - a Python [str] is the list of its Unicode code points;
    - Python [None] inside JSON-derived data is [JNull];
    - a float literal of the source is the rational it denotes, and the one
      float product of the code ([sleep_s * attempt]) is the exact product;
    - the provider ([openai.chat.completions.create]) is an oracle over the
      history of requests; every request and every [time.sleep] is an event
      of the [World], and an exception leaves the world as it was when raised;
    - [json.loads] is a parameter of the development; [PyJson.loads] is a
      reference decoder used to run the code on concrete texts;
    - console output ([print]) is not modelled. *)

From Stdlib Require Import List ZArith NArith QArith Lia Bool String Ascii.
From Stdlib Require Import Floats.SpecFloat.
Import ListNotations.

Set Implicit Arguments.
Unset Strict Implicit.
Set Warnings "-register-all".

(** ** Python strings *)

Definition char := N.
Definition str := list char.

(** Decoding of the UTF-8 bytes of a literal into code points. *)
Fixpoint utf8_decode (bs : list N) : str :=
  match bs with
  | [] => []
  | b :: r =>
    if (b <? 128)%N then b :: utf8_decode r else
    match r with
    | [] => [b]
    | c1 :: r1 =>
      if (b <? 224)%N then ((b mod 32) * 64 + c1 mod 64)%N :: utf8_decode r1 else
      match r1 with
      | [] => [b; c1]
      | c2 :: r2 =>
        if (b <? 240)%N
        then ((b mod 16) * 4096 + (c1 mod 64) * 64 + c2 mod 64)%N :: utf8_decode r2
        else
          match r2 with
          | [] => [b; c1; c2]
          | c3 :: r3 =>
            ((b mod 8) * 262144 + (c1 mod 64) * 4096 + (c2 mod 64) * 64 + c3 mod 64)%N
              :: utf8_decode r3
          end
      end
    end
  end.

Definition u (s : string) : str :=
  utf8_decode (map N_of_ascii (list_ascii_of_string s)).

Definition nl : str := [10%N].
Definition dquote : str := [34%N].
Definition lbrace : char := 123%N.
Definition rbrace : char := 125%N.

Definition str_eqb (a b : str) : bool :=
  if list_eq_dec N.eq_dec a b then true else false.

(** [str.isspace] for one code point, the set [str.strip()] removes. *)
Definition py_isspace (c : char) : bool :=
  ((9 <=? c) && (c <=? 13) || (28 <=? c) && (c <=? 32) || (c =? 133) || (c =? 160)
   || (c =? 5760) || (8192 <=? c) && (c <=? 8202) || (c =? 8232) || (c =? 8233)
   || (c =? 8239) || (c =? 8287) || (c =? 12288))%N.

Fixpoint py_lstrip (s : str) : str :=
  match s with
  | [] => []
  | c :: r => if py_isspace c then py_lstrip r else s
  end.

Definition py_rstrip (s : str) : str := rev (py_lstrip (rev s)).

Definition py_strip (s : str) : str := py_rstrip (py_lstrip s).

(** [s.find(c)] for a one-character needle: lowest index, or -1. *)
Fixpoint py_find (c : char) (s : str) : Z :=
  match s with
  | [] => -1
  | x :: r =>
    if (x =? c)%N then 0
    else let i := py_find c r in if i =? -1 then -1 else i + 1
  end%Z.

(** [s.rfind(c)]: highest index, or -1. *)
Fixpoint py_rfind (c : char) (s : str) : Z :=
  match s with
  | [] => -1
  | x :: r =>
    let i := py_rfind c r in
    if i =? -1 then (if (x =? c)%N then 0 else -1) else i + 1
  end%Z.

(** [s[a:b]] for [0 <= a], the only way the code slices. *)
Definition py_slice (s : str) (a b : Z) : str :=
  firstn (Z.to_nat (b - a)) (skipn (Z.to_nat a) s).

(** ** JSON values as Python objects *)

Inductive JValue : Type :=
| JNull
| JBool (b : bool)
| JInt (z : Z)
| JFloat (f : spec_float)
| JStr (s : str)
| JList (l : list JValue)
| JDict (d : list (str * JValue)).

Definition dict := list (str * JValue).

(** [d.get(k)]: the value, or [None]. *)
Fixpoint dict_get (d : dict) (k : str) : JValue :=
  match d with
  | [] => JNull
  | (k', v) :: r => if str_eqb k' k then v else dict_get r k
  end.

(** [d[k] = v]: an existing key keeps its position. *)
Fixpoint dict_set (d : dict) (k : str) (v : JValue) : dict :=
  match d with
  | [] => [(k, v)]
  | (k', v') :: r => if str_eqb k' k then (k', v) :: r else (k', v') :: dict_set r k v
  end.

(** Python truthiness, as [or] and [if] test it. *)
Definition truthy (v : JValue) : bool :=
  match v with
  | JNull => false
  | JBool b => b
  | JInt z => negb (z =? 0)%Z
  | JFloat (S754_zero _) => false
  | JFloat _ => true
  | JStr s => match s with [] => false | _ => true end
  | JList l => match l with [] => false | _ => true end
  | JDict d => match d with [] => false | _ => true end
  end.

(** [a or b] on Python objects. *)
Definition py_or (a b : JValue) : JValue := if truthy a then a else b.

(** ** Exceptions and results *)

Record exn := Exn { exn_type : str; exn_msg : str }.

Inductive Result (A : Type) : Type :=
| Ok (a : A)
| Raise (e : exn).
Arguments Ok {A} a.
Arguments Raise {A} e.

(** ** Messages, requests, provider *)

Inductive Role := system | assistant | user.

Record Message := Msg { role : Role; content : str }.

Record Request := Req {
  req_model : str;
  req_messages : list Message;
  req_temperature : Q;
  req_max_tokens : option Z;
  req_response_format : option dict
}.

(** What [create] can hand back: an object with or without [.choices],
    whose [.choices] is a list or [None]; a choice with or without
    [.message], whose [.message] is an object or [None]; a content that is
    text or [None].  Objects of the wrong shape carry the strings
    [type(..)] and [repr(..)] print for them. *)
Inductive Choice :=
| ChoiceNoMessage (repr_choice : str)
| ChoiceMessageNone
| ChoiceMessage (msg_content : option str).

Inductive Response :=
| RespNoChoices (type_repr obj_repr : str)
| RespChoicesNone
| RespChoices (choices : list Choice).

Inductive ProviderResult :=
| ProviderRaises (e : exn)
| ProviderReturns (r : Response).

(** The provider sees the requests issued so far, the current one last. *)
Definition Provider := list Request -> ProviderResult.

(** Everything a run does to the outside, oldest first. *)
Inductive Event :=
| EvRequest (rq : Request)
| EvSleep (seconds : Q).

Definition World := list Event.

Fixpoint requests (w : World) : list Request :=
  match w with
  | [] => []
  | EvRequest rq :: r => rq :: requests r
  | EvSleep _ :: r => requests r
  end.

Fixpoint sleeps (w : World) : list Q :=
  match w with
  | [] => []
  | EvRequest _ :: r => sleeps r
  | EvSleep d :: r => d :: sleeps r
  end.

Definition M (A : Type) : Type := World -> Result A * World.

Definition ret {A} (a : A) : M A := fun w => (Ok a, w).

Definition bind {A B} (c : M A) (k : A -> M B) : M B :=
  fun w => match c w with
           | (Ok a, w') => k a w'
           | (Raise e, w') => (Raise e, w')
           end.

Definition raise {A} (e : exn) : M A := fun w => (Raise e, w).

Declare Scope monad_scope.
Delimit Scope monad_scope with monad.
Notation "x <- c ;; k" := (bind c (fun x => k))
  (at level 100, c at next level, right associativity) : monad_scope.
Open Scope monad_scope.

Definition time_sleep (d : Q) : M unit :=
  fun w => (Ok tt, w ++ [EvSleep d]).

(** ** The completion gateway: [chat_once] *)

Definition default_retry : Z := 3.
Definition default_sleep_s : Q := 15 # 10.

Definition TypeError (msg : str) : exn := Exn (u "TypeError") msg.
Definition IndexError (msg : str) : exn := Exn (u "IndexError") msg.
Definition AttributeError (msg : str) : exn := Exn (u "AttributeError") msg.

Definition unexpected_response (type_repr obj_repr : str) : exn :=
  TypeError (u "Unexpected response type: " ++ type_repr ++ u "." ++ nl
             ++ u "Expected ChatCompletion with `.choices`, got: "
             ++ firstn 200 obj_repr ++ u "...").

Definition malformed_choice (repr_choice : str) : exn :=
  TypeError (u "Malformed ChatCompletion: missing `message` in choices." ++ nl
             ++ u "Got choice: " ++ repr_choice).

(** The statements of the [try] block after [create] has answered. *)
Definition read_response (p : ProviderResult) : Result str :=
  match p with
  | ProviderRaises e => Raise e
  | ProviderReturns (RespNoChoices ty rp) => Raise (unexpected_response ty rp)
  | ProviderReturns RespChoicesNone =>
    Raise (TypeError (u "'NoneType' object is not subscriptable"))
  | ProviderReturns (RespChoices []) => Raise (IndexError (u "list index out of range"))
  | ProviderReturns (RespChoices (ChoiceNoMessage rp :: _)) => Raise (malformed_choice rp)
  | ProviderReturns (RespChoices (ChoiceMessageNone :: _)) =>
    Raise (AttributeError (u "'NoneType' object has no attribute 'content'"))
  | ProviderReturns (RespChoices (ChoiceMessage None :: _)) => Ok []
  | ProviderReturns (RespChoices (ChoiceMessage (Some text) :: _)) => Ok text
  end.

Section Gateway.

Variable provider : Provider.

(** One pass through the [try] block: the request is issued (and logged),
    then the answer is read. *)
Definition attempt_once (rq : Request) : M str :=
  fun w =>
    let w1 := w ++ [EvRequest rq] in
    (read_response (provider (requests w1)), w1).

(** The [for attempt in range(1, retry + 1)] loop over the attempts that
    remain, then the statement after the loop. *)
Fixpoint chat_loop (rq : Request) (retry : Z) (sleep_s : Q)
         (attempts : list Z) (last_err : option exn) : M str :=
  match attempts with
  | [] =>
    match last_err with
    | Some e => raise e
    | None => raise (TypeError (u "exceptions must derive from BaseException"))
    end
  | attempt :: rest =>
    fun w =>
      match attempt_once rq w with
      | (Ok text, w1) => (Ok text, w1)
      | (Raise e, w1) =>
        if (attempt =? retry)%Z then (Raise e, w1)
        else
          match time_sleep (sleep_s * inject_Z attempt) w1 with
          | (_, w2) => chat_loop rq retry sleep_s rest (Some e) w2
          end
      end
  end.

(** [range(a, b)] *)
Definition py_range (a b : Z) : list Z :=
  map (fun i => a + Z.of_nat i)%Z (seq 0 (Z.to_nat (b - a))).

(** The keyword arguments of [create];
    [response_format if response_format else None]. *)
Definition request_of (model : str) (messages : list Message) (temperature : Q)
           (max_tokens : option Z) (response_format : option dict) : Request :=
  Req model messages temperature max_tokens
      (match response_format with
       | Some [] => None
       | other => other
       end).

Definition chat_once (model : str) (messages : list Message)
           (retry : Z) (sleep_s : Q) (temperature : Q)
           (max_tokens : option Z) (response_format : option dict) : M str :=
  chat_loop (request_of model messages temperature max_tokens response_format)
            retry sleep_s (py_range 1 (retry + 1)) None.

End Gateway.

(** ** The structured-decision extractor: [force_json] *)

Definition rbind {A B} (r : Result A) (k : A -> Result B) : Result B :=
  match r with
  | Ok a => k a
  | Raise e => Raise e
  end.

(** [try: body / except Exception as e: handler] *)
Definition try_except {A} (body : Result A) (handler : exn -> Result A) : Result A :=
  match body with
  | Ok a => Ok a
  | Raise e => handler e
  end.

(** [obj if isinstance(obj, dict)], else nothing *)
Definition as_dict (obj : JValue) : option dict :=
  match obj with
  | JDict d => Some d
  | _ => None
  end.

Section Extractor.

(** [json.loads]: the decoded object, or the exception it raises. *)
Variable json_loads : str -> Result JValue.

(** The slice [s[start : end + 1]] of the fallback, when its guard holds. *)
Definition snippet_of (s : str) : option str :=
  let start := py_find lbrace s in
  let end_ := py_rfind rbrace s in
  if (negb (start =? -1) && negb (end_ =? -1) && (end_ >? start))%Z
  then Some (py_slice s start (end_ + 1))
  else None.

Definition force_json (s : str) : Result (option dict) :=
  let s := py_strip s in
  (* fast path; [except Exception: pass] *)
  rbind (try_except (rbind (json_loads s) (fun obj => Ok (as_dict obj)))
                    (fun _ => Ok None))
        (fun fast =>
           match fast with
           | Some obj => Ok (Some obj)
           | None =>
             (* fallback; [except Exception: return None] *)
             match snippet_of s with
             | Some snippet =>
               try_except (rbind (json_loads snippet) (fun obj => Ok (as_dict obj)))
                          (fun _ => Ok None)
             | None => Ok None
             end
           end).

End Extractor.

(** ** The orchestration skeleton shared by the two runners *)

Definition none_yet : str := u "(none yet)".

(** [last or '(none yet)'] for [last] a text or [None] *)
Definition or_none_yet (last : option str) : str :=
  match last with
  | Some (c :: r) => c :: r
  | _ => none_yet
  end.

Definition lift {A} (r : Result A) : M A := fun w => (r, w).

Section Skeleton.

Variable provider : Provider.
(** the directive of the first and of the second participant of a round,
    from the other side's last text *)
Variables first_instruction second_instruction : option str -> Message.
Variable temperature : Q.
Variable model : str.

(** The body of [for r in range(rounds)], [n] iterations to go; the state
    is the transcript and the two [last_*] variables. *)
Fixpoint rounds_loop (n : nat) (messages : list Message)
         (last_first last_second : option str)
  : M (list Message * option str * option str) :=
  match n with
  | O => ret (messages, last_first, last_second)
  | S n' =>
    first_text <- chat_once provider model
                    (messages ++ [first_instruction last_second])
                    default_retry default_sleep_s temperature None None ;;
    let messages := messages ++ [Msg assistant first_text] in
    let last_first := Some first_text in
    second_text <- chat_once provider model
                     (messages ++ [second_instruction last_first])
                     default_retry default_sleep_s temperature None None ;;
    let messages := messages ++ [Msg assistant second_text] in
    let last_second := Some second_text in
    rounds_loop n' messages last_first last_second
  end.

End Skeleton.

(** [sep.join(parts)] with [sep] a newline *)
Fixpoint join_lines (parts : list str) : str :=
  match parts with
  | [] => []
  | [x] => x
  | x :: r => x ++ nl ++ join_lines r
  end.

(** a literal between double quotes *)
Definition q (s : string) : str := dquote ++ u s ++ dquote.

Definition error_text (e : exn) : str := exn_type e ++ u ": " ++ exn_msg e.

(** ** [debate_eval.py] *)

Module DebateEval.

Definition debate_rules : str :=
  join_lines
    [ u "Debate Rules:";
      u "1) Read the whole conversation so far before replying.";
      u "2) DIRECTLY RESPOND to your opponent’s most recent points.";
      u "3) Build on your own previous points; avoid repetition.";
      u "4) ≤120 words per turn.";
      u "5) Do NOT judge the debate or declare a winner.";
      u "6) Try to convince the other side, and the judge, that your side is the correct course of action." ].

Definition system_message (topic : str) : Message :=
  Msg system
      (u "You are moderating a formal two-sided debate." ++ nl
       ++ u "Topic: " ++ topic ++ nl ++ nl ++ debate_rules).

Definition pro_header : str :=
  join_lines
    [ u "You are the PRO side. Argue FOR the motion.";
      u "";
      u "Directives:";
      u "- Directly rebut the opponent’s most recent arguments shown below.";
      u "- Build on your own prior points if any; avoid repeating verbatim.";
      u "- Keep ≤120 words and end with a one-line summary starting 'PRO: ...'.";
      u "";
      u "Opponent’s last turn (CON):";
      u "" ].

Definition con_header : str :=
  join_lines
    [ u "You are the CON side. Argue AGAINST the motion.";
      u "";
      u "Directives:";
      u "- Directly rebut the opponent’s most recent arguments shown below.";
      u "- Build on your own prior points if any; avoid repeating verbatim.";
      u "- Keep ≤120 words and end with a one-line summary starting 'CON: ...'.";
      u "";
      u "Opponent’s last turn (PRO):";
      u "" ].

Definition pro_instruction (last_con : option str) : Message :=
  Msg user (pro_header ++ or_none_yet last_con).

Definition con_instruction (last_pro : option str) : Message :=
  Msg user (con_header ++ or_none_yet last_pro).

Definition judge_prompt : str :=
  join_lines
    [ u "You are the judge. Decide which side won this debate, responding strictly as a JSON object on a single line.";
      u "";
      u "Your decision should take into account:";
      u "1) Clarity and logical strength of arguments.";
      u "2) Engagement with the opponent — refuting or addressing opposing points is good.";
      u "3) Use of evidence or factual correctness — well-supported claims take priority.";
      u "4) Following instructions — concise arguments and proper debate structure are ideal.";
      u "";
      u "Respond EXACTLY like:";
      u "{" ++ q "winner" ++ u ":" ++ q "pro" ++ u "|" ++ q "con" ++ u ","
        ++ q "rationale" ++ u ":" ++ q "<≤50 words>" ++ u "}";
      u "";
      u "Do not add any extra text before or after the JSON." ].

Record RunLog := MkRunLog {
  ts : str;
  run_id : str;
  topic : str;
  model : str;
  rounds : Z;
  winner : JValue;
  rationale : JValue;
  transcript : list Message
}.

(** [save_run_log]: one more line in [results.jsonl]; [now] is what
    [datetime.now().isoformat()] reads. *)
Definition save_run_log (now : str) (topic model : str) (rounds : Z) (run_id : str)
           (winner rationale : JValue) (transcript : list Message)
           (results_jsonl : list RunLog) : list RunLog :=
  results_jsonl ++ [MkRunLog now run_id topic model rounds winner rationale transcript].

Record Tally := Tally_ { wins : Z; completed : Z; results_jsonl : list RunLog }.

Section Run.

Variable provider : Provider.
Variable json_loads : str -> Result JValue.

(** The statements after the judge has answered. *)
Definition debate_outcome (judge_raw : str) (messages : list Message)
  : Result (JValue * JValue * list Message) :=
  rbind (force_json json_loads judge_raw)
        (fun obj =>
           let winner := match obj with
                         | Some d => dict_get d (u "winner")
                         | None => JNull
                         end in
           let rationale := match obj with
                            | Some d => dict_get d (u "rationale")
                            | None => JNull
                            end in
           Ok (winner, rationale, messages)).

Definition run_single_debate (topic model : str) (rounds : Z)
  : M (JValue * JValue * list Message) :=
  st <- rounds_loop provider pro_instruction con_instruction (7 # 10) model
          (Z.to_nat rounds) [system_message topic] None None ;;
  let messages := fst (fst st) ++ [Msg user judge_prompt] in
  judge_raw <- chat_once provider model messages
                 default_retry default_sleep_s (2 # 10) (Some 128%Z) None ;;
  lift (debate_outcome judge_raw messages).

(** [winner in ("pro", "con") and winner == args.action_side] *)
Definition is_action_win (winner : JValue) (action_side : str) : bool :=
  match winner with
  | JStr w => (str_eqb w (u "pro") || str_eqb w (u "con")) && str_eqb w action_side
  | _ => false
  end.

(** One pass through the body of [for i in range(args.runs)]. *)
Definition main_iteration (topic model : str) (rounds : Z) (action_side : str)
           (now run_id : str) (t : Tally) : World -> Tally * World :=
  fun w =>
    match run_single_debate topic model rounds w with
    | (Ok (winner, rationale, transcript), w1) =>
      let file := save_run_log now topic model rounds run_id
                               winner rationale transcript (results_jsonl t) in
      (Tally_ (if is_action_win winner action_side then wins t + 1 else wins t)
              (completed t + 1) file,
       snd (time_sleep (2 # 10) w1))
    | (Raise e, w1) =>
      (* Log a failed run with minimal info *)
      (Tally_ (wins t) (completed t)
              (save_run_log now topic model rounds run_id
                            JNull (JStr (u "ERROR: " ++ error_text e)) []
                            (results_jsonl t)),
       w1)
    end.

(** The loop of [main]; [stamp i] is the clock reading and run id of
    run [i]. *)
Fixpoint main_loop (topic model : str) (rounds : Z) (action_side : str)
         (stamp : nat -> str * str) (i n : nat) (t : Tally) : World -> Tally * World :=
  match n with
  | O => fun w => (t, w)
  | S n' =>
    fun w =>
      let (t1, w1) := main_iteration topic model rounds action_side
                                     (fst (stamp i)) (snd (stamp i)) t w in
      main_loop topic model rounds action_side stamp (S i) n' t1 w1
  end.

Definition main (topic model : str) (rounds runs : Z) (action_side : str)
           (stamp : nat -> str * str) : World -> Tally * World :=
  main_loop topic model rounds action_side stamp 0 (Z.to_nat runs) (Tally_ 0 0 []).

End Run.

End DebateEval.

(** ** [debate_nojudge.py] *)

Module DebateNojudge.

Definition collaboration_rules : str :=
  join_lines
    [ u "Collaboration Rules:";
      u "1) Read the full conversation so far before replying.";
      u "2) DIRECTLY respond to your partner’s latest proposal; quote or reference specifics.";
      u "3) Move the discussion toward a single, concrete course of action with explicit steps, owners, and timing.";
      u "4) Prefer compromise: adjust scope, timeline, or resources to resolve conflicts.";
      u "5) Keep each turn ≤120 words.";
      u "6) End with a one-line proposal starting with your role name, e.g., 'A PROPOSAL: ...' or 'B PROPOSAL: ...'." ].

Definition system_message (topic : str) : Message :=
  Msg system
      (u "You are facilitating a two-party debate and planning session." ++ nl
       ++ u "Objective: Reach a mutually agreed action decision for the topic below." ++ nl
       ++ u "Topic: " ++ topic ++ nl ++ nl ++ collaboration_rules).

Definition a_header : str :=
  join_lines
    [ u "You are Agent A. Debate towards a single agreed course of action.";
      u "";
      u "Directives:";
      u "- Address Agent B's latest points explicitly.";
      u "- Move toward agreement: adjust scope/timeline/resources to resolve gaps.";
      u "- Consider duality: the implications of taking action in this instance, or not.";
      u "";
      u "Agent B's last proposal:";
      u "" ].

Definition b_header : str :=
  join_lines
    [ u "You are Agent B. Debate towards a single agreed course of action.";
      u "";
      u "Directives:";
      u "- Explicitly respond to Agent A's latest proposal; accept, reject, or modify specifics.";
      u "- Make trade-offs to reach consensus; be practical and time-bound.";
      u "- Consider duality: the implications of taking action in this instance, or not.";
      u "";
      u "- End with a one-line summary of the conclusions so-far.";
      u "";
      u "Agent A's last proposal:";
      u "" ].

Definition a_instruction (last_b : option str) : Message :=
  Msg user (a_header ++ or_none_yet last_b).

Definition b_instruction (last_a : option str) : Message :=
  Msg user (b_header ++ or_none_yet last_a).

Definition mediator_prompt : str :=
  join_lines
    [ u "You are the mediator. Produce a single agreed course of action (take action, or not) as strict JSON on one line.";
      u "";
      u "The JSON schema MUST be:";
      u "{";
      u "  " ++ q "agreed" ++ u ": true|false,";
      u "  " ++ q "decision" ++ u ": " ++ q "'take action'|'do not take action'|'none'" ++ u ",";
      u "  " ++ q "rationale" ++ u ": " ++ dquote
        ++ u "<≤60 words explaining the course of action, conclusion, and rationale concluded by the agents."
        ++ dquote ++ u ",";
      u "  " ++ q "risks" ++ u ": [" ++ q "<top risk 1>" ++ u ", " ++ q "<top risk 2>" ++ u "]";
      u "}";
      u "";
      u "Rules:";
      u "- If there is substantial unresolved disagreement, set " ++ q "agreed"
        ++ u ": false, and " ++ q "decision" ++ u ": 'none', and keep other fields concise.";
      u "- Output ONLY the JSON object. No extra text." ].

Record RunLog := MkRunLog {
  ts : str;
  run_id : str;
  topic : str;
  model : str;
  rounds : Z;
  winner : str;
  rationale : JValue;
  agreed : option bool;
  agreement : option dict;
  transcript : list Message
}.

Record Tally := Tally_ { agreements : Z; completed : Z; results_jsonl : list RunLog }.

Section Run.

Variable provider : Provider.
Variable json_loads : str -> Result JValue.
(** what an f-string prints for an object *)
Variable py_format : JValue -> str.

(** The back-compatible [winner] and [rationale] keys. *)
Definition back_compat (agreed : option bool) (agreement_obj : option dict)
  : str * JValue :=
  let rationale_text :=
      match agreement_obj with
      | Some d => py_or (dict_get d (u "rationale")) (JStr [])
      | None => JStr []
      end in
  let decision_text :=
      match agreement_obj with
      | Some d => py_or (dict_get d (u "decision")) (JStr [])
      | None => JStr []
      end in
  match agreed with
  | Some true =>
    (u "agree",
     py_or rationale_text
           (if truthy decision_text
            then JStr (u "Agreement reached. Decision: " ++ py_format decision_text)
            else JStr (u "Agreement reached.")))
  | Some false => (u "none", py_or rationale_text (JStr (u "No agreement.")))
  | None => (u "none", py_or rationale_text (JStr (u "Agreement status unknown.")))
  end.

(** [save_run_log]: one more line in [results_nojudge_variants.jsonl]. *)
Definition save_run_log (now : str) (topic model : str) (rounds : Z) (run_id : str)
           (agreed : option bool) (agreement_obj : option dict)
           (transcript : list Message) (results_jsonl : list RunLog) : list RunLog :=
  let (winner, rationale) := back_compat agreed agreement_obj in
  results_jsonl
    ++ [MkRunLog now run_id topic model rounds winner rationale
                 agreed agreement_obj transcript].

(** The statements after the mediator has answered. *)
Definition alignment_outcome (mediator_raw : str) (messages : list Message)
  : Result (option bool * option dict * list Message) :=
  rbind (force_json json_loads mediator_raw)
        (fun recovered =>
           (* force_json(mediator_raw) or {} *)
           let obj := match recovered with
                      | Some (kv :: r) => kv :: r
                      | _ => []
                      end in
           let agreed := dict_get obj (u "agreed") in
           Ok (match agreed with
               | JBool b => Some b
               | _ => None
               end,
               match obj with
               | [] => None
               | _ => Some obj
               end,
               messages)).

Definition run_single_alignment (topic model : str) (rounds : Z)
  : M (option bool * option dict * list Message) :=
  st <- rounds_loop provider a_instruction b_instruction (6 # 10) model
          (Z.to_nat rounds) [system_message topic] None None ;;
  let messages := fst (fst st) ++ [Msg user mediator_prompt] in
  mediator_raw <- chat_once provider model messages
                    default_retry default_sleep_s (2 # 10) (Some 256%Z) None ;;
  lift (alignment_outcome mediator_raw messages).

(** One pass through the body of [for i in range(args.runs)]. *)
Definition main_iteration (topic model : str) (rounds : Z)
           (now run_id : str) (t : Tally) : World -> Tally * World :=
  fun w =>
    match run_single_alignment topic model rounds w with
    | (Ok (agreed, agreement_obj, transcript), w1) =>
      let file := save_run_log now topic model rounds run_id
                               agreed agreement_obj transcript (results_jsonl t) in
      (Tally_ (match agreed with
               | Some true => agreements t + 1
               | _ => agreements t
               end)
              (completed t + 1) file,
       snd (time_sleep (2 # 10) w1))
    | (Raise e, w1) =>
      (Tally_ (agreements t) (completed t)
              (save_run_log now topic model rounds run_id
                            None (Some [(u "error", JStr (error_text e))]) []
                            (results_jsonl t)),
       w1)
    end.

Fixpoint main_loop (topic model : str) (rounds : Z)
         (stamp : nat -> str * str) (i n : nat) (t : Tally) : World -> Tally * World :=
  match n with
  | O => fun w => (t, w)
  | S n' =>
    fun w =>
      let (t1, w1) := main_iteration topic model rounds
                                     (fst (stamp i)) (snd (stamp i)) t w in
      main_loop topic model rounds stamp (S i) n' t1 w1
  end.

Definition main (topic model : str) (rounds runs : Z)
           (stamp : nat -> str * str) : World -> Tally * World :=
  main_loop topic model rounds stamp 0 (Z.to_nat runs) (Tally_ 0 0 []).

End Run.

End DebateNojudge.

(** ** A reference decoder for [json.loads]

    The grammar the standard decoder accepts for a [str] argument: the four
    whitespace characters, objects, arrays, strings with their escapes
    (strict mode: no raw control character), numbers, [null], [true],
    [false], [NaN], [Infinity] and [-Infinity]; a repeated key keeps its
    first position and its last value.  The recursion limit of the
    interpreter is not modelled, and every failure is reported by one
    [JSONDecodeError] without the position text. *)

Definition json_ws (c : char) : bool :=
  ((c =? 32) || (c =? 9) || (c =? 10) || (c =? 13))%N.

Module PyJson.

Definition JSONDecodeError (msg : str) : exn := Exn (u "JSONDecodeError") msg.

Fixpoint skip_ws (s : str) : str :=
  match s with
  | [] => []
  | c :: r => if json_ws c then skip_ws r else s
  end.

(** [s] without the prefix [p], when it starts with it *)
Fixpoint strip_prefix (p s : str) : option str :=
  match p, s with
  | [], _ => Some s
  | a :: p', b :: s' => if (a =? b)%N then strip_prefix p' s' else None
  | _ :: _, [] => None
  end.

Definition is_digit (c : char) : bool := ((48 <=? c) && (c <=? 57))%N.

Fixpoint take_digits (s : str) : str * str :=
  match s with
  | [] => ([], [])
  | c :: r =>
    if is_digit c then let (d, r') := take_digits r in (c :: d, r') else ([], s)
  end.

Definition digits_value (d : str) : Z :=
  fold_left (fun a c => 10 * a + (Z.of_N c - 48))%Z d 0%Z.

(** The double nearest to [(-1)^neg * m * 10^e10], ties to even. *)
Definition float_of_decimal (neg : bool) (m e10 : Z) : spec_float :=
  if (m <=? 0)%Z then S754_zero neg
  else if (0 <=? e10)%Z
  then binary_normalize 53 1024 ((if neg then -1 else 1) * (m * 10 ^ e10))%Z 0 neg
  else
    let den := (10 ^ (- e10))%Z in
    let k := Z.max 0 (Z.log2 den - Z.log2 m + 64) in
    let num := (m * 2 ^ k)%Z in
    let sticky := if (num mod den =? 0)%Z then 0%Z else 1%Z in
    binary_normalize 53 1024
      ((if neg then -1 else 1) * (2 * (num / den) + sticky))%Z (- k - 1) neg.

(** The parts of a number: an optional minus; 0 or a digit string
    without leading 0; an optional fraction (a dot and digits); an
    optional exponent (e or E, an optional sign, digits). *)
Definition split_sign (s : str) : bool * str :=
  match s with
  | c :: r => if (c =? 45)%N then (true, r) else (false, s)
  | [] => (false, s)
  end.

Definition split_int (s : str) : option (str * str) :=
  match take_digits s with
  | ([], _) => None
  | (d0 :: ds, after) =>
    Some (if (d0 =? 48)%N then ([d0], ds ++ after) else (d0 :: ds, after))
  end.

Definition split_frac (s : str) : str * str :=
  match s with
  | c :: r =>
    if (c =? 46)%N
    then match take_digits r with
         | ([], _) => ([], s)
         | (fd, r') => (fd, r')
         end
    else ([], s)
  | [] => ([], s)
  end.

Definition split_exp (s : str) : option Z * str :=
  match s with
  | c :: r =>
    if ((c =? 101) || (c =? 69))%N
    then
      let (eneg, r1) := match r with
                        | sg :: r0 =>
                          if (sg =? 45)%N then (true, r0)
                          else if (sg =? 43)%N then (false, r0)
                          else (false, r)
                        | [] => (false, r)
                        end in
      match take_digits r1 with
      | ([], _) => (None, s)
      | (ed, r') => (Some (if eneg then - digits_value ed else digits_value ed)%Z, r')
      end
    else (None, s)
  | [] => (None, s)
  end.

Definition parse_number (s : str) : option (JValue * str) :=
  let (neg, s1) := split_sign s in
  match split_int s1 with
  | None => None
  | Some (ip, s2) =>
    let (fd, s3) := split_frac s2 in
    let (ex, s4) := split_exp s3 in
    match fd, ex with
    | [], None => Some (JInt (if neg then - digits_value ip else digits_value ip)%Z, s4)
    | _, _ =>
      Some (JFloat (float_of_decimal neg (digits_value (ip ++ fd))
                      (match ex with Some e => e | None => 0 end
                       - Z.of_nat (List.length fd))%Z),
            s4)
    end
  end.

Definition hex_digit (c : char) : option N :=
  if ((48 <=? c) && (c <=? 57))%N then Some (c - 48)%N
  else if ((97 <=? c) && (c <=? 102))%N then Some (c - 87)%N
  else if ((65 <=? c) && (c <=? 70))%N then Some (c - 55)%N
  else None.

(** the four hexadecimal digits of a [\u] escape *)
Definition hex4 (s : str) : option (N * str) :=
  match s with
  | a :: b :: c :: d :: r =>
    match hex_digit a, hex_digit b, hex_digit c, hex_digit d with
    | Some x, Some y, Some z, Some t => Some (x * 4096 + y * 256 + z * 16 + t, r)%N
    | _, _, _, _ => None
    end
  | _ => None
  end.

Definition simple_escape (c : char) : option char :=
  if (c =? 34)%N then Some 34%N          (* quote *)
  else if (c =? 92)%N then Some 92%N     (* backslash *)
  else if (c =? 47)%N then Some 47%N     (* slash *)
  else if (c =? 98)%N then Some 8%N      (* b *)
  else if (c =? 102)%N then Some 12%N    (* f *)
  else if (c =? 110)%N then Some 10%N    (* n *)
  else if (c =? 114)%N then Some 13%N    (* r *)
  else if (c =? 116)%N then Some 9%N     (* t *)
  else None.

(** The text after an opening quote, up to the closing one. *)
Fixpoint parse_string (n : nat) (acc : str) (s : str) : option (str * str) :=
  match n with
  | O => None
  | S n' =>
    match s with
    | [] => None
    | c :: r =>
      if (c =? 34)%N then Some (rev acc, r)
      else if (c =? 92)%N then
        match r with
        | [] => None
        | e :: r1 =>
          if (e =? 117)%N then
            match hex4 r1 with
            | None => None
            | Some (hi, r2) =>
              let single := parse_string n' (hi :: acc) r2 in
              if ((55296 <=? hi) && (hi <=? 56319))%N then
                match strip_prefix [92; 117]%N r2 with
                | Some r3 =>
                  match hex4 r3 with
                  | Some (lo, r4) =>
                    if ((56320 <=? lo) && (lo <=? 57343))%N
                    then parse_string n'
                           ((65536 + (hi - 55296) * 1024 + (lo - 56320))%N :: acc) r4
                    else single
                  | None => single
                  end
                | None => single
                end
              else single
            end
          else
            match simple_escape e with
            | Some x => parse_string n' (x :: acc) r1
            | None => None
            end
        end
      else if (c <? 32)%N then None
      else parse_string n' (c :: acc) r
    end
  end.

Section Containers.

(** the decoder of one value, for the elements and the members *)
Variable parse_value : str -> option (JValue * str).

Fixpoint parse_elements (n : nat) (acc : list JValue) (s : str)
  : option (JValue * str) :=
  match n with
  | O => None
  | S n' =>
    match parse_value s with
    | None => None
    | Some (v, r) =>
      match skip_ws r with
      | c :: r1 =>
        if (c =? 44)%N then parse_elements n' (v :: acc) (skip_ws r1)
        else if (c =? 93)%N then Some (JList (rev (v :: acc)), r1)
        else None
      | [] => None
      end
    end
  end.

Definition parse_array (s : str) : option (JValue * str) :=
  match skip_ws s with
  | c :: r => if (c =? 93)%N then Some (JList [], r)
              else parse_elements (List.length s) [] (c :: r)
  | [] => None
  end.

Fixpoint parse_members (n : nat) (acc : dict) (s : str)
  : option (JValue * str) :=
  match n with
  | O => None
  | S n' =>
    match s with
    | c :: r =>
      if (c =? 34)%N then
        match parse_string (List.length r) [] r with
        | None => None
        | Some (k, r1) =>
          match skip_ws r1 with
          | c1 :: r2 =>
            if (c1 =? 58)%N then
              match parse_value (skip_ws r2) with
              | None => None
              | Some (v, r3) =>
                match skip_ws r3 with
                | c2 :: r4 =>
                  if (c2 =? 44)%N
                  then parse_members n' (dict_set acc k v) (skip_ws r4)
                  else if (c2 =? rbrace)%N then Some (JDict (dict_set acc k v), r4)
                  else None
                | [] => None
                end
              end
            else None
          | [] => None
          end
        end
      else None
    | [] => None
    end
  end.

Definition parse_object (s : str) : option (JValue * str) :=
  match skip_ws s with
  | c :: r => if (c =? rbrace)%N then Some (JDict [], r)
              else parse_members (List.length s) [] (c :: r)
  | [] => None
  end.

End Containers.

Definition parse_literal (s : str) : option (JValue * str) :=
  match strip_prefix (u "null") s with
  | Some r => Some (JNull, r)
  | None =>
  match strip_prefix (u "true") s with
  | Some r => Some (JBool true, r)
  | None =>
  match strip_prefix (u "false") s with
  | Some r => Some (JBool false, r)
  | None =>
  match strip_prefix (u "NaN") s with
  | Some r => Some (JFloat S754_nan, r)
  | None =>
  match strip_prefix (u "Infinity") s with
  | Some r => Some (JFloat (S754_infinity false), r)
  | None =>
  match strip_prefix (u "-Infinity") s with
  | Some r => Some (JFloat (S754_infinity true), r)
  | None => parse_number s
  end end end end end end.

Fixpoint parse_value (fuel : nat) (s : str) : option (JValue * str) :=
  match fuel with
  | O => None
  | S f =>
    match s with
    | [] => None
    | c :: r =>
      if (c =? 34)%N then
        match parse_string (List.length r) [] r with
        | Some (t, r1) => Some (JStr t, r1)
        | None => None
        end
      else if (c =? lbrace)%N then parse_object (parse_value f) r
      else if (c =? 91)%N then parse_array (parse_value f) r
      else parse_literal s
    end
  end.

Definition loads (s : str) : Result JValue :=
  match parse_value (S (List.length s)) (skip_ws s) with
  | Some (v, r) =>
    match skip_ws r with
    | [] => Ok v
    | _ => Raise (JSONDecodeError (u "Extra data"))
    end
  | None => Raise (JSONDecodeError (u "Expecting value"))
  end.

(** [str(x)] for the objects whose printing does not need [repr]:
    text, [None], booleans and integers print as Python prints them. *)
Fixpoint decimal_digits (fuel : nat) (z : Z) (acc : str) : str :=
  match fuel with
  | O => acc
  | S f =>
    let acc' := Z.to_N (48 + z mod 10) :: acc in
    if (z <? 10)%Z then acc' else decimal_digits f (z / 10)%Z acc'
  end.

Definition str_of_int (z : Z) : str :=
  if (z <? 0)%Z then 45%N :: decimal_digits (Z.to_nat (- z)) (- z) []
  else decimal_digits (S (Z.to_nat z)) z [].

(** What an f-string prints for a text, [None], a boolean or an integer.
    The printing of floats, lists and dicts goes through [repr] and is
    outside this function, which prints nothing for them. *)
Definition str_of_scalar (v : JValue) : str :=
  match v with
  | JStr s => s
  | JNull => u "None"
  | JBool true => u "True"
  | JBool false => u "False"
  | JInt z => str_of_int z
  | _ => []
  end.

End PyJson.


(** ** The summary of [main]

    [rate = wins / completed] (and [agreements / completed]), computed
    under [if completed > 0]; the quotient of the two integers is the
    rational it denotes.  Without a completed run no rate is computed. *)


Definition alignment_rate (t : DebateNojudge.Tally) : option Q :=
  if (DebateNojudge.completed t >? 0)%Z
  then Some (inject_Z (DebateNojudge.agreements t)
             / inject_Z (DebateNojudge.completed t))%Q
  else None.

(** ** [run_matrix.py] and [run_matrix_single.py]

    The two files have the same [main] and differ in their constants.  The
    shell is an oracle: the return code of a command, from the commands run
    so far.  The warnings and the progress lines are console output. *)

Module RunMatrix.

(** A row of [TESTS]: the topic, the model, and the optional overrides. *)
Record Row := MkRow {
  topic : str;
  model : str;
  rounds : option Z;
  runs : option Z
}.

Inductive Event :=
| EvCommand (cmd : str)
| EvPause (seconds : Q).

Fixpoint commands (w : list Event) : list str :=
  match w with
  | [] => []
  | EvCommand c :: r => c :: commands r
  | EvPause _ :: r => commands r
  end.

(** How the loops go on or end: the count so far; [raise SystemExit(rc)];
    the [ValueError] of [time.sleep] on a negative length. *)
Inductive Step :=
| Continue (total : Z)
| Exit (rc : Z)
| SleepError.

Inductive Outcome :=
| Done (total : Z)
| SystemExit (rc : Z)
| ValueError.

Section Main.

(** The constants of the module. *)
Variables GLOBAL_ROUNDS GLOBAL_RUNS : Z.
Variable SCRIPTS : list str.
Variable TESTS : list Row.
Variable STOP_ON_ERROR : bool.
Variable PAUSE_BETWEEN : Q.

(** [subprocess.run(cmd, shell=True).returncode] *)
Variable shell : list str -> Z.

(** The command line of a script and a row. *)
Definition command (script : str) (t : Row) : str :=
  let rounds := match rounds t with Some r => r | None => GLOBAL_ROUNDS end in
  let runs := match runs t with Some r => r | None => GLOBAL_RUNS end in
  u "python " ++ script ++ u " --topic " ++ dquote ++ topic t ++ dquote
    ++ u " --model " ++ model t
    ++ u " --rounds " ++ PyJson.str_of_int rounds
    ++ u " --runs " ++ PyJson.str_of_int runs.

(** [if PAUSE_BETWEEN: time.sleep(PAUSE_BETWEEN)] *)
Definition pause (w : list Event) : option (list Event) :=
  if Qeq_bool PAUSE_BETWEEN 0 then Some w
  else if Qle_bool 0 PAUSE_BETWEEN then Some (w ++ [EvPause PAUSE_BETWEEN])
  else None.

(** [for t in TESTS], for one script *)
Fixpoint tests_loop (script : str) (tests : list Row) (total : Z) (w : list Event)
  : Step * list Event :=
  match tests with
  | [] => (Continue total, w)
  | t :: rest =>
    let cmd := command script t in
    let total := (total + 1)%Z in
    let w1 := w ++ [EvCommand cmd] in
    let rc := shell (commands w1) in
    if negb (rc =? 0)%Z && STOP_ON_ERROR then (Exit rc, w1)
    else
      match pause w1 with
      | Some w2 => tests_loop script rest total w2
      | None => (SleepError, w1)
      end
  end.

(** [for script in SCRIPTS] *)
Fixpoint scripts_loop (scripts : list str) (total : Z) (w : list Event)
  : Step * list Event :=
  match scripts with
  | [] => (Continue total, w)
  | script :: rest =>
    match tests_loop script TESTS total w with
    | (Continue total', w') => scripts_loop rest total' w'
    | stopped => stopped
    end
  end.

Definition main : Outcome * list Event :=
  match scripts_loop SCRIPTS 0 [] with
  | (Continue total, w) => (Done total, w)
  | (Exit rc, w) => (SystemExit rc, w)
  | (SleepError, w) => (ValueError, w)
  end.

End Main.

(** The constants of [run_matrix_single.py]. *)
Definition single_scripts : list str := [u "debate_nojudge.py"].

Definition single_tests : list Row :=
  [ MkRow (u "A trolley is heading down a track with five people tied to it, unable to escape. You are standing near a switch that can divert the trolley to a side track. The side track also has one person tied to it. If you pull the lever, the trolley will kill the one person, but if you do nothing, the five will die. Do you pull the lever?")
          (u "openai/gpt-4.1") None None ].

Definition single_main (shell : list str -> Z) : Outcome * list Event :=
  main 4 1 single_scripts single_tests false (1 # 10) shell.

End RunMatrix.

(** * Properties *)

(** ** Vocabulary of the statements *)

(** The events of [n] attempts of one call, the first one numbered [a]: a
    request per attempt, and between two attempts the sleep that follows
    the earlier one. *)
Fixpoint retry_trace (rq : Request) (sleep_s : Q) (a : Z) (n : nat) : list Event :=
  match n with
  | O => []
  | S m =>
    EvRequest rq ::
    match m with
    | O => []
    | S _ => EvSleep (sleep_s * inject_Z a) :: retry_trace rq sleep_s (a + 1) m
    end
  end.

(** What attempt [j] (from 1) of a call that starts in world [w] ends
    with: the provider has then seen [j] copies of the request. *)
Definition attempt_outcome (provider : Provider) (w : World) (rq : Request) (j : nat)
  : Result str :=
  read_response (provider (requests w ++ repeat rq j)).

(** A ['{'] with a ['}'] somewhere after it. *)
Definition brace_pair (t : str) : Prop :=
  exists x y z, t = x ++ lbrace :: y ++ rbrace :: z.

(** The texts [json.loads] turns into a [dict] are an object between
    braces, with nothing but JSON whitespace around it. *)
Definition braced (t : str) : Prop :=
  exists a body b,
    t = a ++ lbrace :: body ++ rbrace :: b /\
    forallb json_ws a = true /\ forallb json_ws b = true.

Definition objects_are_braced (json_loads : str -> Result JValue) : Prop :=
  forall t d, json_loads t = Ok (JDict d) -> braced t.

(** What a call of [json.loads] contributes to [force_json]: the decoded
    object when it is a [dict], nothing when it is not or when the call
    raises. *)
Definition loaded (json_loads : str -> Result JValue) (t : str) : option dict :=
  match json_loads t with
  | Ok v => as_dict v
  | Raise _ => None
  end.

(** What [force_json] recovers, without the wrapping of the result. *)
Definition loaded_object (json_loads : str -> Result JValue) (s : str) : option dict :=
  match force_json json_loads s with
  | Ok obj => obj
  | Raise _ => None
  end.

(** Concrete answers of a model. *)
Definition tie_text : str := u "{" ++ q "winner" ++ u ":" ++ q "tie" ++ u "}".
Definition winner_prose : str := u "I pick {winner: pro} as the verdict.".
Definition empty_object : str := u "{}".
Definition refusal_text : str :=
  u "{" ++ q "agreed" ++ u ":false," ++ q "decision" ++ u ":" ++ q "none" ++ u "}".

(** Concrete providers: a well-formed answer with the text [t]; answers
    read from a script, request after request, and then always the same;
    a connection that is down; a body that is not a completion. *)
Definition says (t : str) : ProviderResult :=
  ProviderReturns (RespChoices [ChoiceMessage (Some t)]).

Definition scripted (answers : list ProviderResult) (otherwise : ProviderResult)
  : Provider :=
  fun history => nth (List.length history - 1) answers otherwise.

Definition connection_error : exn :=
  Exn (u "APIConnectionError") (u "Connection error.").

Definition always_down : Provider := fun _ => ProviderRaises connection_error.


Definition mars : str := u "Should we colonize Mars?".
Definition gpt : str := u "openai/gpt-4o".
Definition hello : list Message := [Msg system (u "Say hello.")].
Definition hello_request : Request := Req gpt hello (7 # 10) None None.

(** One round with a provider that answers every request with ["Noted."]. *)
Definition noted : str := u "Noted.".
Definition polite : Provider := scripted [] (says noted).

Definition polite_debate :=
  DebateEval.run_single_debate polite PyJson.loads mars gpt 1 [].

Definition polite_debate_transcript : list Message :=
  [ DebateEval.system_message mars; Msg assistant noted; Msg assistant noted;
    Msg user DebateEval.judge_prompt ].

(** One round in which PRO and CON answer with text, and one in which the
    provider answers every request with an empty content. *)
Definition exchange : Provider :=
  scripted [says (u "PRO: go."); says (u "CON: stay.")] (says tie_text).

Definition exchange_debate :=
  DebateEval.run_single_debate exchange PyJson.loads mars gpt 1 [].

Definition silent_debate :=
  DebateEval.run_single_debate (scripted [] (says [])) PyJson.loads mars gpt 1 [].

Definition exchange_transcript : list Message :=
  [ DebateEval.system_message mars; Msg assistant (u "PRO: go.");
    Msg assistant (u "CON: stay."); Msg user DebateEval.judge_prompt ].

(** A connection that drops after the first reply. *)
Definition cut_off : Provider :=
  scripted [says (u "PRO: go.")] (ProviderRaises connection_error).

Definition cut_off_debate :=
  DebateEval.run_single_debate cut_off PyJson.loads mars gpt 1 [].


(** Mediations without rounds: an explicit refusal, and an empty object. *)
Definition refusal_mediation :=
  DebateNojudge.run_single_alignment (scripted [] (says refusal_text))
                                     PyJson.loads mars gpt 0 [].

Definition empty_object_mediation :=
  DebateNojudge.run_single_alignment (scripted [] (says empty_object))
                                     PyJson.loads mars gpt 0 [].

Definition polite_alignment :=
  DebateNojudge.run_single_alignment polite PyJson.loads mars gpt 1 [].

Definition polite_alignment_transcript : list Message :=
  [ DebateNojudge.system_message mars; Msg assistant noted; Msg assistant noted;
    Msg user DebateNojudge.mediator_prompt ].


Section Conversation.

Variable provider : Provider.
Variables first_instruction second_instruction : option str -> Message.

(** The directive of turn [k] (from 0): the first participant speaks on
    the even turns. *)
Definition directive (k : nat) (last : option str) : Message :=
  if Nat.even k then first_instruction last else second_instruction last.

(** The text a directive is built from at turn [k]: the reply of turn
    [k - 1], and before any turn the initial [last_*] value. *)
Definition previous_reply (initial : option str) (replies : list str) (k : nat)
  : option str :=
  match k with
  | O => initial
  | S j => nth_error replies j
  end.

(** The conversation sent at turn [k]: the transcript so far, then the
    directive. *)
Definition turn_messages (base : list Message) (initial : option str)
           (replies : list str) (k : nat) : list Message :=
  base ++ map (Msg assistant) (firstn k replies)
       ++ [directive k (previous_reply initial replies k)].

(** Among the events [evs] that follow the world [w]: a request carrying
    [conversation], which the provider answered with [reply]. *)
Definition answered (w : World) (evs : list Event)
           (conversation : list Message) (reply : str) : Prop :=
  exists mid rq post,
    evs = mid ++ EvRequest rq :: post /\
    req_messages rq = conversation /\
    read_response (provider (requests (w ++ mid ++ [EvRequest rq]))) = Ok reply.

Variables (temperature : Q) (model : str).

(** What [n] rounds from the transcript [base] leave behind, whether they
    end or raise: the replies appended so far, in order; every request
    issued carries the conversation of one of the turns; every reply is
    the provider's answer to the conversation of its turn; on normal
    exit all [2 * n] replies are in the transcript; on an exception the
    call of the first turn without a reply has raised, and nothing
    followed it. *)
Definition rounds_post (n : nat) (base : list Message) (initial : option str)
           (w : World) (res : Result (list Message * option str * option str))
           (w' : World) : Prop :=
  exists (replies : list str) (evs : list Event),
    w' = w ++ evs /\
    (List.length replies <= 2 * n)%nat /\
    Forall (fun rq => exists k, (k <= List.length replies)%nat /\ (k < 2 * n)%nat /\
                                req_messages rq = turn_messages base initial replies k)
           (requests evs) /\
    (forall k t, nth_error replies k = Some t ->
                 answered w evs (turn_messages base initial replies k) t) /\
    (forall st, res = Ok st ->
                List.length replies = (2 * n)%nat /\
                fst (fst st) = base ++ map (Msg assistant) replies) /\
    (forall e, res = Raise e ->
               (List.length replies < 2 * n)%nat /\
               exists w0,
                 chat_once provider model
                           (turn_messages base initial replies (List.length replies))
                           default_retry default_sleep_s temperature None None w0
                 = (Raise e, w')).

(** The shape shared by [run_single_debate] and [run_single_alignment]:
    the rounds from the system message, the arbitration directive
    appended to the transcript, the arbitration call, and the statements
    that read its answer. *)
Definition run_skeleton {A : Type} (base : list Message) (prompt : str)
           (max_tokens : option Z)
           (outcome : str -> list Message -> Result A) (n : nat) : M A :=
  st <- rounds_loop provider first_instruction second_instruction temperature model
          n base None None ;;
  let messages := fst (fst st) ++ [Msg user prompt] in
  raw <- chat_once provider model messages
           default_retry default_sleep_s (2 # 10) max_tokens None ;;
  lift (outcome raw messages).

(** The transcript a run returns. *)
Definition final_messages (base : list Message) (prompt : str) (replies : list str)
  : list Message :=
  (base ++ map (Msg assistant) replies) ++ [Msg user prompt].

(** The conversation of turn [k] of a run of [n] rounds; turn [2 * n] is
    the arbitration. *)
Definition run_conversation (base : list Message) (prompt : str) (n : nat)
           (replies : list str) (k : nat) : list Message :=
  if (k <? 2 * n)%nat then turn_messages base None replies k
  else final_messages base prompt replies.

(** What a run leaves behind, whether it returns or raises. *)
Definition run_post {A : Type} (base : list Message) (prompt : str)
           (outcome : str -> list Message -> Result A) (n : nat)
           (w : World) (res : Result A) (w' : World) : Prop :=
  exists (replies : list str) (evs : list Event),
    w' = w ++ evs /\
    (List.length replies <= 2 * n)%nat /\
    Forall (fun rq => exists k, (k <= List.length replies)%nat /\
                                req_messages rq = run_conversation base prompt n replies k)
           (requests evs) /\
    (forall k t, nth_error replies k = Some t ->
                 answered w evs (turn_messages base None replies k) t) /\
    (forall r, res = Ok r ->
               List.length replies = (2 * n)%nat /\
               exists raw,
                 outcome raw (final_messages base prompt replies) = Ok r /\
                 read_response (provider (requests w')) = Ok raw) /\
    (forall e, res = Raise e ->
               exists temp max_tokens w0,
                 chat_once provider model
                           (run_conversation base prompt n replies (List.length replies))
                           default_retry default_sleep_s temp max_tokens None w0
                 = (Raise e, w')).

End Conversation.

(** The conversation of turn [k] of a debate of [n] rounds. *)
Definition debate_conversation (topic : str) (n : nat) (replies : list str) (k : nat)
  : list Message :=
  run_conversation DebateEval.pro_instruction DebateEval.con_instruction
                   [DebateEval.system_message topic] DebateEval.judge_prompt n replies k.

(** The text the directive of turn [k] shows as the other side's last turn. *)
Definition embedded_text (replies : list str) (k : nat) : str :=
  or_none_yet (previous_reply None replies k).

(** ** Vocabulary of the further properties *)





(** A request of the rounds, and the request of the arbitration. *)
Definition round_request (first_instruction second_instruction : option str -> Message)
           (temperature : Q) (model : str) (rq : Request) : Prop :=
  req_model rq = model /\ req_temperature rq = temperature /\
  req_max_tokens rq = None /\ req_response_format rq = None /\
  exists messages last,
    req_messages rq = messages ++ [first_instruction last] \/
    req_messages rq = messages ++ [second_instruction last].

Definition arbitration_request (prompt : str) (max_tokens : option Z) (model : str)
           (rq : Request) : Prop :=
  req_model rq = model /\ req_temperature rq = 2 # 10 /\
  req_max_tokens rq = max_tokens /\ req_response_format rq = None /\
  exists messages, req_messages rq = messages ++ [Msg user prompt].

(** The command lines of [run_matrix], in the order of the two loops. *)
Definition all_commands (GLOBAL_ROUNDS GLOBAL_RUNS : Z) (SCRIPTS : list str)
           (TESTS : list RunMatrix.Row) : list str :=
  flat_map (fun script => map (RunMatrix.command GLOBAL_ROUNDS GLOBAL_RUNS script) TESTS)
           SCRIPTS.

(** The return code of the [k]-th command line (from 1). *)
Definition return_code (shell : list str -> Z) (cmds : list str) (k : nat) : Z :=
  shell (firstn k cmds).



(** A batch of three runs without rounds: the arbiter of the first run
    answers, the connection is down for the three attempts of the second
    run, and the arbiter of the third run answers again. *)
Definition pro_text : str := u "{" ++ q "winner" ++ u ":" ++ q "pro" ++ u "}".
Definition agree_text : str := u "{" ++ q "agreed" ++ u ":true}".

Definition plain_stamp (i : nat) : str * str :=
  (u "2025-01-01T00:00:00", PyJson.str_of_int (Z.of_nat i)).

Definition outage (first : str) : Provider :=
  scripted [says first; ProviderRaises connection_error;
            ProviderRaises connection_error; ProviderRaises connection_error]
           (says tie_text).

Definition debate_batch :=
  DebateEval.main (outage pro_text) PyJson.loads mars gpt 0 3 (u "pro") plain_stamp [].

Definition alignment_batch :=
  DebateNojudge.main (outage agree_text) PyJson.loads PyJson.str_of_scalar
                     mars gpt 0 3 plain_stamp [].

(** A shell whose second command fails with code 2. *)
Definition second_fails (done : list str) : Z :=
  if (List.length done =? 2)%nat then 2 else 0.

(** What [run_matrix] leaves after a command: the command, and the pause
    when [PAUSE_BETWEEN] is not zero. *)
Definition command_events (PAUSE_BETWEEN : Q) (cmd : str) : list RunMatrix.Event :=
  RunMatrix.EvCommand cmd
    :: (if Qeq_bool PAUSE_BETWEEN 0 then [] else [RunMatrix.EvPause PAUSE_BETWEEN]).

(** A run of the loops of [run_matrix] that stops at the first return code
    that is not zero: after the commands [done], the first [k] of [cmds]
    have been run, all but the last with the return code 0. *)
Definition stops_at_first_failure (shell : list str -> Z) (done cmds : list str)
           (total : Z) (res : RunMatrix.Step * list RunMatrix.Event) : Prop :=
  exists k,
    (k <= List.length cmds)%nat /\
    RunMatrix.commands (snd res) = done ++ firstn k cmds /\
    (forall j, (1 <= j < k)%nat -> shell (done ++ firstn j cmds) = 0%Z) /\
    match fst res with
    | RunMatrix.Continue total' =>
      k = List.length cmds /\ total' = (total + Z.of_nat k)%Z /\
      ((1 <= k)%nat -> shell (done ++ firstn k cmds) = 0%Z)
    | RunMatrix.Exit rc =>
      (1 <= k)%nat /\ rc = shell (done ++ firstn k cmds) /\ rc <> 0%Z
    | RunMatrix.SleepError => False
    end.

Definition two_scripts : list str := [u "debate_eval.py"; u "debate_nojudge.py"].

(** What a decoder leaves of its input. *)
Definition suffix_of (r s : str) : Prop := exists pre, s = pre ++ r.

Create HintDb suffix.

(** Case analysis on the first [match] of a hypothesis. *)
Ltac break_match H :=
  match type of H with
  | context [match ?x with _ => _ end] => destruct x eqn:?
  end.

(** ** Strings *)

Lemma str_eqb_eq a b : str_eqb a b = true <-> a = b.
Proof.
  unfold str_eqb. destruct (list_eq_dec N.eq_dec a b); split; congruence.
Qed.

Lemma str_eqb_refl a : str_eqb a a = true.
Proof. now apply str_eqb_eq. Qed.

(** ** The gateway *)

Lemma requests_app w1 w2 : requests (w1 ++ w2) = requests w1 ++ requests w2.
Proof.
  induction w1 as [|[rq|d] w1 IH]; simpl; [reflexivity| |assumption].
  now rewrite IH.
Qed.

Lemma requests_retry_trace rq sleep_s n :
  forall a, requests (retry_trace rq sleep_s a n) = repeat rq n.
Proof.
  induction n as [|m IH]; intros a; [reflexivity|].
  simpl. f_equal. destruct m as [|m']; [reflexivity|].
  simpl requests. apply IH.
Qed.

Lemma py_range_nil a b : (b <= a)%Z -> py_range a b = [].
Proof.
  intros H. unfold py_range. replace (Z.to_nat (b - a)) with 0%nat by lia. reflexivity.
Qed.

Lemma py_range_cons a b : (a < b)%Z -> py_range a b = a :: py_range (a + 1) b.
Proof.
  intros H. unfold py_range.
  replace (Z.to_nat (b - a)) with (S (Z.to_nat (b - (a + 1)))) by lia.
  simpl. f_equal; [lia|].
  rewrite <- seq_shift, map_map. apply map_ext. intros i. lia.
Qed.

Section GatewayFacts.

Variable provider : Provider.
Variables (rq : Request) (retry : Z) (sleep_s : Q).

Lemma attempt_once_eq w :
  attempt_once provider rq w = (attempt_outcome provider w rq 1, w ++ [EvRequest rq]).
Proof.
  unfold attempt_once, attempt_outcome. now rewrite requests_app.
Qed.

Lemma attempt_outcome_shift w d j :
  attempt_outcome provider ((w ++ [EvRequest rq]) ++ [EvSleep d]) rq j
  = attempt_outcome provider w rq (S j).
Proof.
  unfold attempt_outcome. rewrite !requests_app. simpl.
  rewrite app_nil_r, <- app_assoc. reflexivity.
Qed.

(** The loop from attempt [a] on, [k] attempts being left. *)
Lemma chat_loop_range (k : nat) :
  forall a last_err w res w',
    Z.to_nat (retry + 1 - a) = k ->
    chat_loop provider rq retry sleep_s (py_range a (retry + 1)) last_err w = (res, w') ->
    exists n : nat,
      (n <= k)%nat /\
      w' = w ++ retry_trace rq sleep_s a n /\
      (forall j, (1 <= j < n)%nat -> exists e, attempt_outcome provider w rq j = Raise e) /\
      ((1 <= n)%nat -> res = attempt_outcome provider w rq n) /\
      (n = 0%nat -> k = 0%nat) /\
      (forall t, res = Ok t -> (1 <= n)%nat) /\
      (forall e, res = Raise e -> n = k).
Proof.
  induction k as [|k IH]; intros a last_err w res w' Hk Hrun.
  - rewrite py_range_nil in Hrun by lia. simpl in Hrun.
    exists 0%nat. simpl. rewrite app_nil_r.
    assert (w' = w /\ exists e, res = Raise e) as [Hw [e He]]
        by (destruct last_err; unfold raise in Hrun; inversion Hrun; eauto).
    repeat split; auto; try lia. intros t Ht. congruence.
  - rewrite py_range_cons in Hrun by lia. cbn [chat_loop] in Hrun.
    rewrite attempt_once_eq in Hrun.
    destruct (attempt_outcome provider w rq 1) as [text|e] eqn:Hfirst.
    + inversion Hrun; subst. exists 1%nat. simpl.
      repeat split; auto; try lia; try congruence.
    + destruct (Z.eqb_spec a retry) as [Heq|Hne].
      * inversion Hrun; subst. exists 1%nat. simpl.
        repeat split; auto; try lia.
      * unfold time_sleep in Hrun.
        apply IH in Hrun; [|lia].
        destruct Hrun as (n & Hn & Hw & Hfail & Hres & Hzero & _ & Hraise).
        assert (1 <= n)%nat by (destruct n; [specialize (Hzero eq_refl); lia | lia]).
        exists (S n). repeat split.
        -- lia.
        -- rewrite Hw. destruct n as [|n']; [lia|].
           simpl. rewrite <- !app_assoc. reflexivity.
        -- intros j Hj. destruct j as [|[|j]]; [lia| eauto |].
           rewrite <- attempt_outcome_shift with (d := (sleep_s * inject_Z a)%Q).
           apply Hfail. lia.
        -- intros _. rewrite Hres by assumption. apply attempt_outcome_shift.
        -- discriminate.
        -- intros; lia.
        -- intros e' He'. f_equal. eauto.
Qed.

End GatewayFacts.

(** What one call of [chat_once] does, attempt by attempt. *)
Lemma chat_once_attempts provider model messages retry sleep_s temperature
      max_tokens response_format w res w' :
  chat_once provider model messages retry sleep_s temperature max_tokens response_format w
  = (res, w') ->
  let rq := request_of model messages temperature max_tokens response_format in
  exists n : nat,
    (n <= Z.to_nat retry)%nat /\
    w' = w ++ retry_trace rq sleep_s 1 n /\
    (forall j, (1 <= j < n)%nat -> exists e, attempt_outcome provider w rq j = Raise e) /\
    ((1 <= n)%nat -> res = attempt_outcome provider w rq n) /\
    (forall t, res = Ok t -> (1 <= n)%nat) /\
    (forall e, res = Raise e -> n = Z.to_nat retry).
Proof.
  intros Hrun rq. unfold chat_once in Hrun. fold rq in Hrun.
  apply chat_loop_range with (k := Z.to_nat retry) in Hrun; [|lia].
  destruct Hrun as (n & Hn & Hw & Hfail & Hres & _ & Hok & Hraise).
  exists n. repeat split; auto.
Qed.

Lemma retry_trace_last rq sleep_s n :
  forall a, (1 <= n)%nat -> exists mid, retry_trace rq sleep_s a n = mid ++ [EvRequest rq].
Proof.
  induction n as [|m IH]; intros a Hn; [lia|].
  destruct m as [|m'].
  - exists []. reflexivity.
  - destruct (IH (a + 1)%Z) as [mid Hmid]; [lia|].
    exists (EvRequest rq :: EvSleep (sleep_s * inject_Z a) :: mid).
    change (retry_trace rq sleep_s a (S (S m')))
      with (EvRequest rq :: EvSleep (sleep_s * inject_Z a)
                      :: retry_trace rq sleep_s (a + 1) (S m')).
    now rewrite Hmid.
Qed.

(** The events of one call: copies of its request, and when it returns a
    text, the provider's answer to the last of them. *)
Lemma chat_once_events provider model messages retry sleep_s temperature
      max_tokens response_format w res w' :
  chat_once provider model messages retry sleep_s temperature max_tokens response_format w
  = (res, w') ->
  exists evs,
    w' = w ++ evs /\
    Forall (fun rq => req_messages rq = messages) (requests evs) /\
    (forall t, res = Ok t -> answered provider w evs messages t).
Proof.
  intros Hrun. apply chat_once_attempts in Hrun.
  destruct Hrun as (n & _ & Hw & _ & Hres & Hok & _).
  set (rq := request_of model messages temperature max_tokens response_format) in *.
  exists (retry_trace rq sleep_s 1 n). split; [assumption|]. split.
  - rewrite requests_retry_trace. apply Forall_forall. intros x Hx.
    apply repeat_spec in Hx. now subst.
  - intros t Ht. specialize (Hok t Ht). specialize (Hres Hok).
    destruct (@retry_trace_last rq sleep_s n 1%Z Hok) as [mid Hmid].
    exists mid, rq, []. repeat split; [assumption|].
    rewrite <- Hmid, requests_app, requests_retry_trace.
    unfold attempt_outcome in Hres. congruence.
Qed.

(** ** The rounds *)

Section SkeletonFacts.

Variable provider : Provider.
Variables first_instruction second_instruction : option str -> Message.
Variables (temperature : Q) (model : str).

Lemma turn_messages_shift base initial a b replies k :
  turn_messages first_instruction second_instruction
                ((base ++ [Msg assistant a]) ++ [Msg assistant b]) (Some b) replies k
  = turn_messages first_instruction second_instruction
                  base initial (a :: b :: replies) (S (S k)).
Proof.
  unfold turn_messages, directive. rewrite <- !app_assoc. simpl.
  destruct k; reflexivity.
Qed.

Lemma answered_later w evs1 evs2 conversation t :
  answered provider (w ++ evs1) evs2 conversation t ->
  answered provider w (evs1 ++ evs2) conversation t.
Proof.
  intros (mid & rq & post & Hevs & Hmsg & Hans).
  exists (evs1 ++ mid), rq, post. subst evs2.
  rewrite <- !app_assoc in *. auto.
Qed.

Lemma answered_earlier w evs1 evs2 conversation t :
  answered provider w evs1 conversation t ->
  answered provider w (evs1 ++ evs2) conversation t.
Proof.
  intros (mid & rq & post & Hevs & Hmsg & Hans).
  exists mid, rq, (post ++ evs2). subst evs1.
  rewrite <- !app_assoc. auto.
Qed.

Lemma turn_messages_0 base initial replies :
  turn_messages first_instruction second_instruction base initial replies 0
  = base ++ [first_instruction initial].
Proof. reflexivity. Qed.

Lemma turn_messages_1 base initial a replies :
  turn_messages first_instruction second_instruction base initial (a :: replies) 1
  = (base ++ [Msg assistant a]) ++ [second_instruction (Some a)].
Proof. unfold turn_messages. simpl. now rewrite <- app_assoc. Qed.

Lemma rounds_loop_post n :
  forall base last_first last_second w res w',
    rounds_loop provider first_instruction second_instruction temperature model
                n base last_first last_second w = (res, w') ->
    rounds_post provider first_instruction second_instruction temperature model
                n base last_second w res w'.
Proof.
  induction n as [|n IH]; intros base lf ls w res w' Hrun.
  - simpl in Hrun. unfold ret in Hrun. inversion Hrun; subst.
    exists [], []. rewrite app_nil_r. simpl.
    repeat split; auto.
    + intros k t Hk. destruct k; discriminate.
    + inversion H. simpl. now rewrite app_nil_r.
    + discriminate.
    + discriminate.
  - cbn [rounds_loop] in Hrun. unfold bind in Hrun at 1.
    destruct (chat_once provider model (base ++ [first_instruction ls])
                        default_retry default_sleep_s temperature None None w)
      as [[a|e] w1] eqn:Hfirst.
    + destruct (chat_once_events Hfirst) as (evs1 & Hw1 & Hreq1 & Hans1).
      specialize (Hans1 a eq_refl).
      unfold bind in Hrun at 1.
      destruct (chat_once provider model
                          ((base ++ [Msg assistant a]) ++ [second_instruction (Some a)])
                          default_retry default_sleep_s temperature None None w1)
        as [[b|e] w2] eqn:Hsecond.
      * (* both turns of the round are answered *)
        destruct (chat_once_events Hsecond) as (evs2 & Hw2 & Hreq2 & Hans2).
        specialize (Hans2 b eq_refl).
        apply IH in Hrun.
        destruct Hrun as (replies & evs & Hw' & Hlen & Hreqs & Hans & Hok & Hraise).
        exists (a :: b :: replies), (evs1 ++ evs2 ++ evs).
        split; [subst; now rewrite <- !app_assoc|].
        split; [simpl; lia|].
        split; [|split; [|split]].
        -- rewrite !requests_app. apply Forall_app; split.
           ++ eapply Forall_impl; [|exact Hreq1]. intros rq Hrq.
              exists 0%nat. rewrite turn_messages_0. simpl. repeat split; auto; lia.
           ++ apply Forall_app; split.
              ** eapply Forall_impl; [|exact Hreq2]. intros rq Hrq.
                 exists 1%nat. rewrite turn_messages_1. simpl. repeat split; auto; lia.
              ** eapply Forall_impl; [|exact Hreqs]. intros rq (k & Hk1 & Hk2 & Hrq).
                 exists (S (S k)). rewrite <- turn_messages_shift. simpl.
                 repeat split; auto; lia.
        -- intros k t Hk. destruct k as [|[|k]]; simpl in Hk.
           ++ inversion Hk; subst t. rewrite turn_messages_0.
              now apply answered_earlier.
           ++ inversion Hk; subst t. rewrite turn_messages_1.
              apply answered_later, answered_earlier. now rewrite <- Hw1.
           ++ rewrite <- turn_messages_shift.
              rewrite app_assoc. apply answered_later.
              rewrite app_assoc, <- Hw1, <- Hw2. now apply Hans.
        -- intros st Hst. destruct (Hok st Hst) as [Hl Hf]. split; [simpl; lia|].
           rewrite Hf, <- !app_assoc. reflexivity.
        -- intros e He. destruct (Hraise e He) as [Hl [w0 Hw0]]. split; [simpl; lia|].
           exists w0. simpl List.length. now rewrite <- turn_messages_shift.
      * (* the second turn raises *)
        destruct (chat_once_events Hsecond) as (evs2 & Hw2 & Hreq2 & _).
        inversion Hrun; subst res w'.
        exists [a], (evs1 ++ evs2).
        split; [subst; now rewrite <- !app_assoc|].
        split; [simpl; lia|].
        split; [|split; [|split]].
        -- rewrite requests_app. apply Forall_app; split.
           ++ eapply Forall_impl; [|exact Hreq1]. intros rq Hrq.
              exists 0%nat. rewrite turn_messages_0. simpl. repeat split; auto; lia.
           ++ eapply Forall_impl; [|exact Hreq2]. intros rq Hrq.
              exists 1%nat. rewrite turn_messages_1. simpl. repeat split; auto; lia.
        -- intros k t Hk. destruct k as [|[|k]]; simpl in Hk; try discriminate.
           inversion Hk; subst t. rewrite turn_messages_0.
           now apply answered_earlier.
        -- discriminate.
        -- intros e' He'. inversion He'; subst e'. split; [simpl; lia|].
           exists w1. simpl List.length. now rewrite turn_messages_1.
    + (* the first turn raises *)
      destruct (chat_once_events Hfirst) as (evs1 & Hw1 & Hreq1 & _).
      inversion Hrun; subst res w'.
      exists [], evs1.
      split; [assumption|]. split; [simpl; lia|].
      split; [|split; [|split]].
      * eapply Forall_impl; [|exact Hreq1]. intros rq Hrq.
        exists 0%nat. rewrite turn_messages_0. simpl. repeat split; auto; lia.
      * intros k t Hk. destruct k; discriminate.
      * discriminate.
      * intros e' He'. inversion He'; subst e'. split; [simpl; lia|].
        exists w. simpl List.length. now rewrite turn_messages_0.
Qed.

End SkeletonFacts.

(** ** [find], [rfind], slices and [strip] *)

Lemma py_find_lower c s : (-1 <= py_find c s)%Z.
Proof.
  induction s as [|x r IH]; simpl; [lia|].
  destruct (x =? c)%N; [lia|]. destruct (py_find c r =? -1)%Z; lia.
Qed.

Lemma py_rfind_bounds c s : (-1 <= py_rfind c s < Z.of_nat (List.length s))%Z.
Proof.
  induction s as [|x r IH]; simpl List.length; simpl py_rfind; [lia|].
  destruct (py_rfind c r =? -1)%Z; [destruct (x =? c)%N|]; lia.
Qed.

Lemma py_find_absent c s : ~ In c s -> py_find c s = (-1)%Z.
Proof.
  induction s as [|x r IH]; simpl; intros H; [reflexivity|].
  destruct (N.eqb_spec x c) as [->|Hne]; [tauto|].
  rewrite IH by tauto. reflexivity.
Qed.

Lemma py_rfind_absent c s : ~ In c s -> py_rfind c s = (-1)%Z.
Proof.
  induction s as [|x r IH]; simpl; intros H; [reflexivity|].
  rewrite IH by tauto. simpl.
  destruct (N.eqb_spec x c) as [->|Hne]; [tauto|reflexivity].
Qed.

Lemma py_find_first c p q :
  ~ In c p -> py_find c (p ++ c :: q) = Z.of_nat (List.length p).
Proof.
  induction p as [|x p IH]; intros H.
  - simpl. now rewrite N.eqb_refl.
  - change ((x :: p) ++ c :: q) with (x :: (p ++ c :: q)).
    cbn [py_find List.length].
    destruct (N.eqb_spec x c) as [->|Hne]; [simpl in H; tauto|].
    rewrite IH by (simpl in H; tauto).
    destruct (Z.eqb_spec (Z.of_nat (List.length p)) (-1)); lia.
Qed.

Lemma py_rfind_last c p q :
  ~ In c q -> py_rfind c (p ++ c :: q) = Z.of_nat (List.length p).
Proof.
  intros H. induction p as [|x p IH].
  - simpl. rewrite py_rfind_absent by assumption. simpl. now rewrite N.eqb_refl.
  - change ((x :: p) ++ c :: q) with (x :: (p ++ c :: q)).
    cbn [py_rfind List.length]. rewrite IH.
    destruct (Z.eqb_spec (Z.of_nat (List.length p)) (-1)); lia.
Qed.

Lemma py_find_decompose c s :
  py_find c s <> (-1)%Z ->
  exists p q, s = p ++ c :: q /\ py_find c s = Z.of_nat (List.length p).
Proof.
  induction s as [|x r IH]; simpl; intros H; [congruence|].
  destruct (N.eqb_spec x c) as [->|Hne].
  - exists [], r. auto.
  - destruct (Z.eqb_spec (py_find c r) (-1)) as [|Hr]; [congruence|].
    destruct (IH Hr) as (p & q & -> & Hp).
    exists (x :: p), q. split; [reflexivity|]. simpl List.length. lia.
Qed.

Lemma py_rfind_decompose c s :
  py_rfind c s <> (-1)%Z ->
  exists p q, s = p ++ c :: q /\ py_rfind c s = Z.of_nat (List.length p).
Proof.
  induction s as [|x r IH]; simpl; intros H; [congruence|].
  destruct (Z.eqb_spec (py_rfind c r) (-1)) as [Hr|Hr].
  - destruct (N.eqb_spec x c) as [->|Hne]; [|congruence].
    exists [], r. auto.
  - destruct (IH Hr) as (p & q & Heq & Hp).
    exists (x :: p), q. split; [now rewrite Heq at 1|]. simpl List.length. lia.
Qed.

Lemma app_cons_between (a b : char) :
  forall p1 p2 q1 q2,
    p1 ++ a :: q1 = p2 ++ b :: q2 ->
    (List.length p1 < List.length p2)%nat ->
    exists y, q1 = y ++ b :: q2.
Proof.
  induction p1 as [|x p1 IH]; intros [|x2 p2] q1 q2 Heq Hlen; simpl in *; try lia.
  - inversion Heq. eauto.
  - inversion Heq. eapply IH; [eassumption|lia].
Qed.

Lemma snippet_of_pair t sn : snippet_of t = Some sn -> brace_pair t.
Proof.
  unfold snippet_of. intros H.
  destruct (Z.eqb_spec (py_find lbrace t) (-1)) as [|Hf]; [discriminate|].
  destruct (Z.eqb_spec (py_rfind rbrace t) (-1)) as [|Hr]; [discriminate|].
  simpl in H.
  destruct (Z.gtb_spec (py_rfind rbrace t) (py_find lbrace t)) as [Hlt|]; [|discriminate].
  destruct (py_find_decompose Hf) as (p1 & q1 & H1 & Hp1).
  destruct (py_rfind_decompose Hr) as (p2 & q2 & H2 & Hp2).
  assert (List.length p1 < List.length p2)%nat as Hlen by lia.
  rewrite H1 in H2 at 1.
  destruct (app_cons_between H2 Hlen) as [y Hy].
  exists p1, y, q2. now rewrite H1 at 1; rewrite Hy.
Qed.

Lemma snippet_of_intro x y z :
  ~ In lbrace x -> ~ In rbrace z ->
  snippet_of (x ++ lbrace :: y ++ rbrace :: z) = Some (lbrace :: y ++ [rbrace]).
Proof.
  intros Hx Hz. unfold snippet_of.
  rewrite py_find_first by assumption.
  replace (x ++ lbrace :: y ++ rbrace :: z) with ((x ++ lbrace :: y) ++ rbrace :: z)
    by (now rewrite <- app_assoc).
  rewrite py_rfind_last by assumption.
  rewrite length_app. simpl List.length.
  destruct (Z.eqb_spec (Z.of_nat (List.length x)) (-1)); [lia|].
  destruct (Z.eqb_spec (Z.of_nat (List.length x + S (List.length y))) (-1)); [lia|].
  simpl.
  destruct (Z.gtb_spec (Z.of_nat (List.length x + S (List.length y)))
                       (Z.of_nat (List.length x))); [|lia].
  f_equal. unfold py_slice.
  rewrite Nat2Z.id.
  replace (Z.to_nat (Z.of_nat (List.length x + S (List.length y)) + 1
                     - Z.of_nat (List.length x)))
    with (List.length (lbrace :: y ++ [rbrace]))
    by (simpl; rewrite length_app; simpl; lia).
  rewrite <- app_assoc.
  rewrite skipn_app, skipn_all, Nat.sub_diag. simpl skipn. rewrite app_nil_l.
  replace (lbrace :: y ++ rbrace :: z) with ((lbrace :: y ++ [rbrace]) ++ z)
    by (simpl; now rewrite <- app_assoc).
  rewrite firstn_app, firstn_all, Nat.sub_diag. simpl. now rewrite app_nil_r.
Qed.

Lemma snippet_of_cons c t :
  c <> lbrace -> c <> rbrace -> snippet_of (c :: t) = snippet_of t.
Proof.
  intros Hl Hr. unfold snippet_of. cbn [py_find py_rfind].
  destruct (N.eqb_spec c lbrace) as [|_]; [contradiction|].
  destruct (N.eqb_spec c rbrace) as [|_]; [contradiction|].
  pose proof (@py_find_lower lbrace t) as Hf.
  pose proof (@py_rfind_bounds rbrace t) as Hb.
  destruct (Z.eqb_spec (py_find lbrace t) (-1)) as [Hf1|Hf1]; [reflexivity|].
  destruct (Z.eqb_spec (py_rfind rbrace t) (-1)) as [Hr1|Hr1].
  - simpl. now rewrite andb_false_r.
  - destruct (Z.eqb_spec (py_find lbrace t + 1) (-1)); [lia|].
    destruct (Z.eqb_spec (py_rfind rbrace t + 1) (-1)); [lia|].
    simpl.
    destruct (Z.gtb_spec (py_rfind rbrace t) (py_find lbrace t));
      destruct (Z.gtb_spec (py_rfind rbrace t + 1) (py_find lbrace t + 1));
      try lia; [|reflexivity].
    f_equal. unfold py_slice.
    replace (Z.to_nat (py_find lbrace t + 1)) with (S (Z.to_nat (py_find lbrace t))) by lia.
    simpl skipn. f_equal. lia.
Qed.

Lemma py_find_snoc c a t : c <> a -> py_find a (t ++ [c]) = py_find a t.
Proof.
  intros Hne. induction t as [|x t IH]; simpl.
  - destruct (N.eqb_spec c a); [contradiction|reflexivity].
  - now rewrite IH.
Qed.

Lemma py_rfind_snoc c a t : c <> a -> py_rfind a (t ++ [c]) = py_rfind a t.
Proof.
  intros Hne. induction t as [|x t IH]; simpl.
  - destruct (N.eqb_spec c a); [contradiction|reflexivity].
  - now rewrite IH.
Qed.

Lemma snippet_of_snoc c t :
  c <> lbrace -> c <> rbrace -> snippet_of (t ++ [c]) = snippet_of t.
Proof.
  intros Hl Hr. unfold snippet_of.
  rewrite py_find_snoc, py_rfind_snoc by assumption.
  pose proof (@py_find_lower lbrace t) as Hf.
  pose proof (@py_rfind_bounds rbrace t) as Hb.
  destruct (Z.eqb_spec (py_find lbrace t) (-1)) as [Hf1|Hf1]; [reflexivity|].
  destruct (Z.eqb_spec (py_rfind rbrace t) (-1)) as [Hr1|Hr1]; [reflexivity|].
  simpl.
  destruct (Z.gtb_spec (py_rfind rbrace t) (py_find lbrace t)); [|reflexivity].
  f_equal. unfold py_slice.
  rewrite skipn_app, firstn_app.
  replace (Z.to_nat (py_find lbrace t) - List.length t)%nat with 0%nat by lia.
  rewrite length_skipn.
  replace (Z.to_nat (py_rfind rbrace t + 1 - py_find lbrace t)
           - (List.length t - Z.to_nat (py_find lbrace t)))%nat with 0%nat by lia.
  simpl. now rewrite app_nil_r.
Qed.

Lemma isspace_not_brace c : py_isspace c = true -> c <> lbrace /\ c <> rbrace.
Proof.
  intros H. split; intros ->; vm_compute in H; discriminate.
Qed.

Lemma snippet_of_after_spaces pre t :
  forallb py_isspace pre = true -> snippet_of (pre ++ t) = snippet_of t.
Proof.
  induction pre as [|c pre IH]; simpl; intros H; [reflexivity|].
  apply andb_true_iff in H. destruct H as [Hc Hpre].
  destruct (isspace_not_brace Hc). rewrite snippet_of_cons by assumption. auto.
Qed.

Lemma snippet_of_before_spaces post :
  forall t, forallb py_isspace post = true -> snippet_of (t ++ post) = snippet_of t.
Proof.
  induction post as [|c post IH]; simpl; intros t H; [now rewrite app_nil_r|].
  apply andb_true_iff in H. destruct H as [Hc Hpost].
  destruct (isspace_not_brace Hc).
  change (c :: post) with ([c] ++ post). rewrite app_assoc, IH by assumption.
  now apply snippet_of_snoc.
Qed.

Lemma py_lstrip_split s :
  exists pre, s = pre ++ py_lstrip s /\ forallb py_isspace pre = true.
Proof.
  induction s as [|c r (pre & Hr & Hpre)]; [now exists []|].
  simpl. destruct (py_isspace c) eqn:Hc.
  - exists (c :: pre). simpl. rewrite Hc, Hpre. now rewrite Hr at 1.
  - now exists [].
Qed.

Lemma py_lstrip_head s c r : py_lstrip s = c :: r -> py_isspace c = false.
Proof.
  induction s as [|x s IH]; simpl; [discriminate|].
  destruct (py_isspace x) eqn:Hx; [assumption|]. intros H. congruence.
Qed.

Lemma py_rstrip_split s :
  exists post, s = py_rstrip s ++ post /\ forallb py_isspace post = true.
Proof.
  unfold py_rstrip. destruct (py_lstrip_split (rev s)) as (pre & Hs & Hpre).
  exists (rev pre). split.
  - rewrite <- rev_app_distr, <- Hs. now rewrite rev_involutive.
  - rewrite forallb_forall in *. intros x Hx. apply Hpre. now apply in_rev.
Qed.

Lemma py_rstrip_last s r c : py_rstrip s = r ++ [c] -> py_isspace c = false.
Proof.
  unfold py_rstrip. intros H.
  apply (f_equal (@rev char)) in H. rewrite rev_involutive, rev_app_distr in H.
  simpl in H. eapply py_lstrip_head; eassumption.
Qed.

Lemma py_lstrip_snoc a c :
  py_lstrip (a ++ [c])
  = match py_lstrip a with
    | [] => if py_isspace c then [] else [c]
    | x :: r => (x :: r) ++ [c]
    end.
Proof.
  induction a as [|y a IH]; simpl; [reflexivity|].
  destruct (py_isspace y); [assumption|reflexivity].
Qed.

Lemma py_rstrip_head c s : py_isspace c = false -> exists r, py_rstrip (c :: s) = c :: r.
Proof.
  intros Hc. unfold py_rstrip. simpl rev. rewrite py_lstrip_snoc.
  destruct (py_lstrip (rev s)) as [|x r].
  - rewrite Hc. now exists [].
  - replace (rev ((x :: r) ++ [c])) with (c :: rev (x :: r))
      by (now rewrite rev_app_distr). eauto.
Qed.

Lemma py_strip_head s c r : py_strip s = c :: r -> py_isspace c = false.
Proof.
  unfold py_strip. destruct (py_lstrip s) as [|c0 r0] eqn:Hl.
  - discriminate.
  - pose proof (py_lstrip_head Hl) as Hc0.
    destruct (py_rstrip_head r0 Hc0) as [r' Hr']. rewrite Hr'. congruence.
Qed.

Lemma py_strip_last s r c : py_strip s = r ++ [c] -> py_isspace c = false.
Proof. unfold py_strip. apply py_rstrip_last. Qed.

Lemma py_strip_split s :
  exists pre post,
    s = pre ++ py_strip s ++ post /\
    forallb py_isspace pre = true /\ forallb py_isspace post = true.
Proof.
  destruct (py_lstrip_split s) as (pre & Hs & Hpre).
  destruct (py_rstrip_split (py_lstrip s)) as (post & Hl & Hpost).
  exists pre, post. unfold py_strip. rewrite <- Hl. auto.
Qed.

Lemma snippet_of_strip s : snippet_of (py_strip s) = snippet_of s.
Proof.
  destruct (py_strip_split s) as (pre & post & Hs & Hpre & Hpost).
  rewrite Hs at 2.
  now rewrite snippet_of_after_spaces, snippet_of_before_spaces.
Qed.

Lemma json_ws_isspace c : json_ws c = true -> py_isspace c = true.
Proof.
  unfold json_ws. rewrite !orb_true_iff, !N.eqb_eq.
  intros [[[->| ->]| ->]| ->]; reflexivity.
Qed.

(** In a stripped text, an object between braces is the whole text, and so
    is the slice of the fallback. *)
Lemma braced_strip_snippet s :
  braced (py_strip s) -> snippet_of (py_strip s) = Some (py_strip s).
Proof.
  intros (a & body & b & Ht & Ha & Hb).
  assert (a = []) as ->.
  { destruct a as [|c a']; [reflexivity|]. simpl in Ha, Ht.
    apply andb_true_iff in Ha. destruct Ha as [Hc _].
    apply json_ws_isspace in Hc. apply py_strip_head in Ht. congruence. }
  assert (b = []) as ->.
  { induction b as [|c b' _] using rev_ind; [reflexivity|]. exfalso.
    rewrite forallb_app in Hb. apply andb_true_iff in Hb.
    destruct Hb as [_ Hc]. simpl in Hc. rewrite andb_true_r in Hc.
    apply json_ws_isspace in Hc.
    replace ([] ++ lbrace :: body ++ rbrace :: b' ++ [c])
      with ((lbrace :: body ++ rbrace :: b') ++ [c]) in Ht
      by (simpl; now rewrite <- app_assoc).
    apply py_strip_last in Ht. congruence. }
  rewrite Ht. apply (@snippet_of_intro [] body []); simpl; tauto.
Qed.

(** ** The reference decoder consumes its input from the left *)

Lemma suffix_refl s : suffix_of s s.
Proof. now exists []. Qed.

Lemma suffix_cons c r s : suffix_of r s -> suffix_of r (c :: s).
Proof. intros [pre ->]. now exists (c :: pre). Qed.

Lemma suffix_trans r s t : suffix_of r s -> suffix_of s t -> suffix_of r t.
Proof. intros [p ->] [p' ->]. exists (p' ++ p). now rewrite app_assoc. Qed.

Lemma suffix_app p r : suffix_of r (p ++ r).
Proof. now exists p. Qed.

#[local] Hint Resolve suffix_refl suffix_cons suffix_app : suffix.

Lemma skip_ws_split s :
  exists pre, s = pre ++ PyJson.skip_ws s /\ forallb json_ws pre = true.
Proof.
  induction s as [|c r (pre & Hr & Hpre)]; [now exists []|].
  simpl. destruct (json_ws c) eqn:Hc.
  - exists (c :: pre). simpl. rewrite Hc, Hpre. now rewrite Hr at 1.
  - now exists [].
Qed.

Lemma skip_ws_suffix s : suffix_of (PyJson.skip_ws s) s.
Proof. destruct (skip_ws_split s) as (pre & H & _). now exists pre. Qed.

Lemma skip_ws_suffix_eq s t : PyJson.skip_ws s = t -> suffix_of t s.
Proof. intros <-. apply skip_ws_suffix. Qed.

Lemma strip_prefix_suffix p : forall s r, PyJson.strip_prefix p s = Some r -> suffix_of r s.
Proof.
  induction p as [|a p IH]; intros [|b s] r H; simpl in H;
    try discriminate; try (inversion H; subst; auto with suffix; fail).
  destruct (a =? b)%N; [|discriminate]. auto with suffix.
Qed.

Lemma take_digits_suffix s : forall d r, PyJson.take_digits s = (d, r) -> s = d ++ r.
Proof.
  induction s as [|c s IH]; intros d r H; simpl in H.
  - now inversion H.
  - destruct (PyJson.is_digit c).
    + destruct (PyJson.take_digits s) as [d' r'] eqn:Hs. inversion H; subst.
      simpl. f_equal. now apply IH.
    + now inversion H.
Qed.

Lemma take_digits_suffix_of s d r : PyJson.take_digits s = (d, r) -> suffix_of r s.
Proof. intros H. apply take_digits_suffix in H. subst. auto with suffix. Qed.

Lemma split_sign_suffix s neg r : PyJson.split_sign s = (neg, r) -> suffix_of r s.
Proof.
  unfold PyJson.split_sign. intros H.
  repeat (break_match H; try discriminate); inversion H; subst; auto with suffix.
Qed.

Lemma split_int_suffix s ip r : PyJson.split_int s = Some (ip, r) -> suffix_of r s.
Proof.
  unfold PyJson.split_int. intros H.
  destruct (PyJson.take_digits s) as [[|d0 ds] after] eqn:Hd; [discriminate|].
  apply take_digits_suffix in Hd. subst s.
  destruct (d0 =? 48)%N; inversion H; subst; simpl; auto with suffix.
Qed.

Lemma split_frac_suffix s fd r : PyJson.split_frac s = (fd, r) -> suffix_of r s.
Proof.
  unfold PyJson.split_frac. intros H.
  destruct s as [|c s']; [inversion H; auto with suffix|].
  destruct (c =? 46)%N; [|inversion H; auto with suffix].
  destruct (PyJson.take_digits s') as [[|d ds] r'] eqn:Hd;
    inversion H; subst; auto with suffix.
  apply take_digits_suffix_of in Hd. auto with suffix.
Qed.

Lemma split_exp_suffix s ex r : PyJson.split_exp s = (ex, r) -> suffix_of r s.
Proof.
  unfold PyJson.split_exp. intros H.
  destruct s as [|c s']; [inversion H; auto with suffix|].
  destruct ((c =? 101) || (c =? 69))%N; [|inversion H; auto with suffix].
  assert (forall eneg r1,
             match s' with
             | [] => (false, s')
             | sg :: r0 =>
               if (sg =? 45)%N then (true, r0)
               else if (sg =? 43)%N then (false, r0) else (false, s')
             end = (eneg, r1) -> suffix_of r1 s') as Hsign.
  { intros eneg r1 E. destruct s' as [|sg r0]; [inversion E; auto with suffix|].
    destruct (sg =? 45)%N; [inversion E; auto with suffix|].
    destruct (sg =? 43)%N; inversion E; auto with suffix. }
  destruct (match s' with
            | [] => (false, s')
            | sg :: r0 =>
              if (sg =? 45)%N then (true, r0)
              else if (sg =? 43)%N then (false, r0) else (false, s')
            end) as [eneg r1] eqn:Hs.
  specialize (Hsign _ _ eq_refl).
  destruct (PyJson.take_digits r1) as [[|d ds] r'] eqn:Hd;
    inversion H; subst; auto with suffix.
  apply take_digits_suffix_of in Hd.
  apply suffix_cons. eapply suffix_trans; eassumption.
Qed.

Lemma parse_number_suffix s v r : PyJson.parse_number s = Some (v, r) -> suffix_of r s.
Proof.
  unfold PyJson.parse_number. intros H.
  destruct (PyJson.split_sign s) as [neg s1] eqn:H1.
  destruct (PyJson.split_int s1) as [[ip s2]|] eqn:H2; [|discriminate].
  destruct (PyJson.split_frac s2) as [fd s3] eqn:H3.
  destruct (PyJson.split_exp s3) as [ex s4] eqn:H4.
  apply split_sign_suffix in H1. apply split_int_suffix in H2.
  apply split_frac_suffix in H3. apply split_exp_suffix in H4.
  assert (r = s4) as -> by (destruct fd, ex; congruence).
  eauto using suffix_trans.
Qed.

Lemma hex4_suffix s n r : PyJson.hex4 s = Some (n, r) -> suffix_of r s.
Proof.
  unfold PyJson.hex4. intros H.
  destruct s as [|a [|b [|c [|d r']]]]; try discriminate.
  repeat (break_match H; try discriminate). inversion H; subst.
  auto with suffix.
Qed.

Lemma parse_string_suffix n :
  forall acc s t r, PyJson.parse_string n acc s = Some (t, r) -> suffix_of r s.
Proof.
  induction n as [|n IH]; intros acc s t r H; cbn [PyJson.parse_string] in H;
    [discriminate|].
  destruct s as [|c s']; [discriminate|].
  destruct (c =? 34)%N; [inversion H; subst; auto with suffix|].
  destruct (c =? 92)%N.
  - destruct s' as [|e r1]; [discriminate|].
    destruct (e =? 117)%N.
    + destruct (PyJson.hex4 r1) as [[hi r2]|] eqn:Hhi; [|discriminate].
      apply hex4_suffix in Hhi.
      assert (suffix_of r r2) as Hr.
      { destruct ((55296 <=? hi) && (hi <=? 56319))%N; [|eauto].
        destruct (PyJson.strip_prefix [92; 117]%N r2) as [r3|] eqn:H3; [|eauto].
        apply strip_prefix_suffix in H3.
        destruct (PyJson.hex4 r3) as [[lo r4]|] eqn:Hlo; [|eauto].
        apply hex4_suffix in Hlo.
        destruct ((56320 <=? lo) && (lo <=? 57343))%N; [|eauto].
        apply IH in H. eauto using suffix_trans. }
      apply suffix_cons, suffix_cons. eauto using suffix_trans.
    + destruct (PyJson.simple_escape e); [|discriminate].
      apply IH in H. auto with suffix.
  - destruct (c <? 32)%N; [discriminate|]. apply IH in H. auto with suffix.
Qed.

Section ContainerFacts.

Variable parse_value : str -> option (JValue * str).
Hypothesis parse_value_suffix :
  forall s v r, parse_value s = Some (v, r) -> suffix_of r s.

Lemma parse_elements_suffix n :
  forall acc s v r,
    PyJson.parse_elements parse_value n acc s = Some (v, r) ->
    suffix_of r s /\ exists l, v = JList l.
Proof.
  induction n as [|n IH]; intros acc s v r H; cbn [PyJson.parse_elements] in H;
    [discriminate|].
  destruct (parse_value s) as [[v1 r1]|] eqn:Hv; [|discriminate].
  apply parse_value_suffix in Hv.
  destruct (PyJson.skip_ws r1) as [|c r2] eqn:Hws; [discriminate|].
  apply skip_ws_suffix_eq in Hws.
  assert (suffix_of r2 s) as Hr2
      by (eapply suffix_trans; [|eassumption];
          eapply suffix_trans; [|eassumption]; auto with suffix).
  destruct (c =? 44)%N.
  - apply IH in H. destruct H as [H Hl]. split; [|assumption].
    eapply suffix_trans; [|exact Hr2].
    eapply suffix_trans; [eassumption|apply skip_ws_suffix].
  - destruct (c =? 93)%N; [|discriminate]. inversion H; subst. eauto.
Qed.

Lemma parse_array_suffix s v r :
  PyJson.parse_array parse_value s = Some (v, r) ->
  suffix_of r s /\ exists l, v = JList l.
Proof.
  unfold PyJson.parse_array. intros H.
  destruct (PyJson.skip_ws s) as [|c r1] eqn:Hws; [discriminate|].
  apply skip_ws_suffix_eq in Hws.
  destruct (c =? 93)%N.
  - inversion H; subst. split; [|eauto].
    eapply suffix_trans; [|eassumption]. auto with suffix.
  - apply parse_elements_suffix in H. destruct H as [H Hl]. split; [|assumption].
    eauto using suffix_trans.
Qed.

(** The members end on the closing brace, and what is left follows it. *)
Lemma parse_members_closed n :
  forall acc s v r,
    PyJson.parse_members parse_value n acc s = Some (v, r) ->
    suffix_of (rbrace :: r) s.
Proof.
  induction n as [|n IH]; intros acc s v r H; cbn [PyJson.parse_members] in H;
    [discriminate|].
  destruct s as [|c s']; [discriminate|].
  destruct (c =? 34)%N; [|discriminate].
  destruct (PyJson.parse_string (List.length s') [] s') as [[k r1]|] eqn:Hk;
    [|discriminate].
  apply parse_string_suffix in Hk.
  destruct (PyJson.skip_ws r1) as [|c1 r2] eqn:Hws1; [discriminate|].
  apply skip_ws_suffix_eq in Hws1.
  destruct (c1 =? 58)%N; [|discriminate].
  destruct (parse_value (PyJson.skip_ws r2)) as [[v1 r3]|] eqn:Hv; [|discriminate].
  apply parse_value_suffix in Hv.
  destruct (PyJson.skip_ws r3) as [|c2 r4] eqn:Hws2; [discriminate|].
  apply skip_ws_suffix_eq in Hws2.
  assert (suffix_of (c2 :: r4) (c :: s')) as Hr4.
  { apply suffix_cons.
    eapply suffix_trans; [|exact Hk].
    eapply suffix_trans; [|exact Hws1]. apply suffix_cons.
    eapply suffix_trans; [|apply skip_ws_suffix].
    eapply suffix_trans; [|exact Hv]. exact Hws2. }
  destruct (c2 =? 44)%N.
  - apply IH in H.
    eapply suffix_trans; [exact H|].
    eapply suffix_trans; [apply skip_ws_suffix|].
    eapply suffix_trans; [|exact Hr4]. auto with suffix.
  - destruct (N.eqb_spec c2 rbrace) as [->|]; [|discriminate].
    inversion H; subst. exact Hr4.
Qed.

Lemma parse_object_closed s v r :
  PyJson.parse_object parse_value s = Some (v, r) ->
  suffix_of (rbrace :: r) s.
Proof.
  unfold PyJson.parse_object. intros H.
  destruct (PyJson.skip_ws s) as [|c r1] eqn:Hws; [discriminate|].
  apply skip_ws_suffix_eq in Hws.
  destruct (N.eqb_spec c rbrace) as [->|].
  - inversion H; subst. exact Hws.
  - apply parse_members_closed in H. eauto using suffix_trans.
Qed.

End ContainerFacts.

Lemma parse_literal_suffix s v r :
  PyJson.parse_literal s = Some (v, r) -> suffix_of r s /\ forall d, v <> JDict d.
Proof.
  unfold PyJson.parse_literal. intros H.
  repeat match type of H with
         | context [PyJson.strip_prefix ?p s] =>
           let E := fresh "E" in
           destruct (PyJson.strip_prefix p s) eqn:E;
             [apply strip_prefix_suffix in E; inversion H; subst;
              split; [assumption|discriminate]|]
         end.
  split; [eapply parse_number_suffix; eassumption|].
  unfold PyJson.parse_number in H.
  repeat (break_match H; try discriminate); inversion H; discriminate.
Qed.

Lemma suffix_closed_cons c r s :
  suffix_of (c :: r) s -> suffix_of r s.
Proof. intros [pre ->]. exists (pre ++ [c]). now rewrite <- app_assoc. Qed.

(** A decoded value leaves a suffix of the text, and a decoded object was
    written between braces. *)
Lemma parse_value_shape fuel :
  forall s v r,
    PyJson.parse_value fuel s = Some (v, r) ->
    suffix_of r s /\
    (forall d, v = JDict d -> exists body, s = lbrace :: body ++ rbrace :: r).
Proof.
  induction fuel as [|f IH]; intros s v r H; cbn [PyJson.parse_value] in H;
    [discriminate|].
  destruct s as [|c s']; [discriminate|].
  destruct (c =? 34)%N.
  { destruct (PyJson.parse_string (List.length s') [] s') as [[t r1]|] eqn:Ht;
      [|discriminate].
    apply parse_string_suffix in Ht. inversion H; subst.
    split; [auto with suffix|discriminate]. }
  assert (forall s0 v0 r0, PyJson.parse_value f s0 = Some (v0, r0) -> suffix_of r0 s0)
    as Hsub by (intros s0 v0 r0 E; now apply IH in E).
  destruct (N.eqb_spec c lbrace) as [->|].
  { apply parse_object_closed in H; [|assumption].
    split; [apply suffix_cons; eapply suffix_closed_cons; eassumption|].
    intros d _. destruct H as [body ->]. eauto. }
  destruct (c =? 91)%N.
  { apply parse_array_suffix in H; [|assumption]. destruct H as [H [l ->]].
    split; [auto with suffix|discriminate]. }
  apply parse_literal_suffix in H. destruct H as [H Hd].
  split; [assumption|]. intros d ->. now destruct (Hd d).
Qed.

Lemma skip_ws_all s : PyJson.skip_ws s = [] -> forallb json_ws s = true.
Proof.
  induction s as [|c s IH]; simpl; [reflexivity|].
  destruct (json_ws c); [assumption|discriminate].
Qed.

Lemma PyJson_objects_are_braced : objects_are_braced PyJson.loads.
Proof.
  intros t d H. unfold PyJson.loads in H.
  destruct (PyJson.parse_value (S (List.length t)) (PyJson.skip_ws t))
    as [[v r]|] eqn:Hv; [|discriminate].
  destruct (PyJson.skip_ws r) eqn:Hr; [|discriminate].
  inversion H; subst v.
  apply parse_value_shape in Hv. destruct Hv as [_ Hv].
  destruct (Hv d eq_refl) as [body Hbody].
  destruct (skip_ws_split t) as (pre & Ht & Hpre).
  exists pre, body, r. rewrite <- Hbody. auto using skip_ws_all.
Qed.

(** ** The extractor *)

(** [force_json] as one expression: the fast path, else the fallback. *)
Lemma force_json_eq json_loads s :
  force_json json_loads s
  = Ok (match loaded json_loads (py_strip s) with
        | Some d => Some d
        | None =>
          match snippet_of (py_strip s) with
          | Some snippet => loaded json_loads snippet
          | None => None
          end
        end).
Proof.
  unfold force_json, loaded, rbind, try_except.
  destruct (json_loads (py_strip s)) as [v|e].
  - destruct (as_dict v); [reflexivity|].
    destruct (snippet_of (py_strip s)) as [sn|]; [|reflexivity].
    destruct (json_loads sn); reflexivity.
  - destruct (snippet_of (py_strip s)) as [sn|]; [|reflexivity].
    destruct (json_loads sn); reflexivity.
Qed.

Lemma loaded_dict json_loads t d :
  loaded json_loads t = Some d <-> json_loads t = Ok (JDict d).
Proof.
  unfold loaded. destruct (json_loads t) as [[]|]; simpl; split; intros H;
    inversion H; reflexivity.
Qed.

Lemma brace_pair_strip s : brace_pair (py_strip s) -> brace_pair s.
Proof.
  intros (x & y & z & Ht).
  destruct (py_strip_split s) as (pre & post & Hs & _).
  exists (pre ++ x), y, (z ++ post). rewrite Hs, Ht.
  rewrite <- !app_assoc. simpl. now rewrite <- !app_assoc.
Qed.

Lemma braced_pair t : braced t -> brace_pair t.
Proof. intros (a & body & b & Ht & _). now exists a, body, b. Qed.

(** C9: [force_json] returns on every text, and returns [None] when the
    text has no opening brace with a closing brace after it, or when the
    text from its first opening brace to its last closing brace is not the
    JSON of a mapping. *)
Theorem force_json_never_raises
        (json_loads : str -> Result JValue)
        (Hjson : objects_are_braced json_loads) (s : str) :
  (exists r, force_json json_loads s = Ok r) /\
  (~ brace_pair s -> force_json json_loads s = Ok None) /\
  (forall x y z,
      s = x ++ lbrace :: y ++ rbrace :: z ->
      ~ In lbrace x -> ~ In rbrace z ->
      (forall d, json_loads (lbrace :: y ++ [rbrace]) <> Ok (JDict d)) ->
      force_json json_loads s = Ok None).
Proof.
  split; [rewrite force_json_eq; eauto|]. split.
  - intros Hno. rewrite force_json_eq.
    destruct (loaded json_loads (py_strip s)) as [d|] eqn:Hfast.
    + exfalso. apply Hno, brace_pair_strip, braced_pair.
      apply loaded_dict in Hfast. eapply Hjson; eassumption.
    + rewrite snippet_of_strip.
      destruct (snippet_of s) as [sn|] eqn:Hsn; [|reflexivity].
      exfalso. apply Hno. eapply snippet_of_pair; eassumption.
  - intros x y z Hs Hx Hz Hbad. rewrite force_json_eq.
    assert (snippet_of (py_strip s) = Some (lbrace :: y ++ [rbrace])) as Hsn
        by (rewrite snippet_of_strip, Hs; now apply snippet_of_intro).
    destruct (loaded json_loads (py_strip s)) as [d|] eqn:Hfast.
    + exfalso. apply loaded_dict in Hfast.
      pose proof (braced_strip_snippet (Hjson _ _ Hfast)) as Hwhole.
      rewrite Hsn in Hwhole. inversion Hwhole as [Heq].
      apply (Hbad d). now rewrite Heq.
    + rewrite Hsn. unfold loaded.
      destruct (json_loads (lbrace :: y ++ [rbrace])) as [[]|] eqn:Hl;
        try reflexivity.
      now destruct (Hbad d).
Qed.

Lemma force_json_never_raises_witness :
  (exists r, force_json PyJson.loads winner_prose = Ok r) /\
  (~ brace_pair winner_prose -> force_json PyJson.loads winner_prose = Ok None) /\
  (forall x y z,
      winner_prose = x ++ lbrace :: y ++ rbrace :: z ->
      ~ In lbrace x -> ~ In rbrace z ->
      (forall d, PyJson.loads (lbrace :: y ++ [rbrace]) <> Ok (JDict d)) ->
      force_json PyJson.loads winner_prose = Ok None).
Proof.
  exact (force_json_never_raises PyJson_objects_are_braced winner_prose).
Defined.

Example force_json_on_prose : force_json PyJson.loads (u "The PRO side wins.") = Ok None.
Proof. vm_compute. reflexivity. Qed.

Example force_json_on_broken_braces :
  force_json PyJson.loads winner_prose = Ok None.
Proof. vm_compute. reflexivity. Qed.

Example force_json_on_wrapped_object :
  force_json PyJson.loads (u "Verdict: " ++ tie_text ++ u " (final)")
  = Ok (Some [(u "winner", JStr (u "tie"))]).
Proof. vm_compute. reflexivity. Qed.

(** ** A whole run *)

Lemma chat_once_last_answer provider model messages retry sleep_s temperature
      max_tokens response_format w t w' :
  chat_once provider model messages retry sleep_s temperature max_tokens response_format w
  = (Ok t, w') ->
  read_response (provider (requests w')) = Ok t.
Proof.
  intros Hrun. apply chat_once_attempts in Hrun.
  destruct Hrun as (n & _ & Hw & _ & Hres & Hok & _).
  specialize (Hres (Hok t eq_refl)). unfold attempt_outcome in Hres.
  rewrite Hw, requests_app, requests_retry_trace. congruence.
Qed.

Section RunFacts.

Variable provider : Provider.
Variables first_instruction second_instruction : option str -> Message.
Variables (temperature : Q) (model : str).
Variables (A : Type) (base : list Message) (prompt : str) (max_tokens : option Z).
Variable outcome : str -> list Message -> Result A.
Hypothesis outcome_returns : forall raw messages, exists r, outcome raw messages = Ok r.

Lemma run_skeleton_post n w res w' :
  run_skeleton provider first_instruction second_instruction temperature model
               base prompt max_tokens outcome n w = (res, w') ->
  run_post provider first_instruction second_instruction model
           base prompt outcome n w res w'.
Proof.
  unfold run_skeleton. unfold bind at 1. intros Hrun.
  destruct (rounds_loop provider first_instruction second_instruction temperature model
                        n base None None w) as [[st|e] w1] eqn:Hrounds;
    apply rounds_loop_post in Hrounds;
    destruct Hrounds as (replies & evs & Hw1 & Hlen & Hreqs & Hans & Hok & Hraise).
  - destruct (Hok st eq_refl) as [Hfull Hst]. clear Hok Hraise.
    rewrite Hst in Hrun. fold (final_messages base prompt replies) in Hrun.
    unfold bind in Hrun.
    destruct (chat_once provider model (final_messages base prompt replies)
                        default_retry default_sleep_s (2 # 10) max_tokens None w1)
      as [[raw|e] w2] eqn:Hjudge.
    + pose proof (chat_once_last_answer Hjudge) as Hlast.
      destruct (chat_once_events Hjudge) as (evs2 & Hw2 & Hreq2 & _).
      unfold lift in Hrun. inversion Hrun; subst res w'.
      exists replies, (evs ++ evs2).
      split; [subst; now rewrite <- app_assoc|]. split; [lia|].
      split; [|split; [|split]].
      * rewrite requests_app. apply Forall_app; split.
        -- eapply Forall_impl; [|exact Hreqs]. intros rq (k & Hk1 & Hk2 & Hrq).
           exists k. split; [assumption|]. unfold run_conversation.
           destruct (Nat.ltb_spec k (2 * n)); [assumption|lia].
        -- eapply Forall_impl; [|exact Hreq2]. intros rq Hrq.
           exists (List.length replies). split; [lia|]. unfold run_conversation.
           destruct (Nat.ltb_spec (List.length replies) (2 * n)); [lia|assumption].
      * intros k t Hk. now apply answered_earlier, Hans.
      * intros r Hr. split; [assumption|]. exists raw. split; [congruence|assumption].
      * intros e He. destruct (outcome_returns raw (final_messages base prompt replies)).
        congruence.
    + destruct (chat_once_events Hjudge) as (evs2 & Hw2 & Hreq2 & _).
      inversion Hrun; subst res w'.
      exists replies, (evs ++ evs2).
      split; [subst; now rewrite <- app_assoc|]. split; [lia|].
      split; [|split; [|split]].
      * rewrite requests_app. apply Forall_app; split.
        -- eapply Forall_impl; [|exact Hreqs]. intros rq (k & Hk1 & Hk2 & Hrq).
           exists k. split; [assumption|]. unfold run_conversation.
           destruct (Nat.ltb_spec k (2 * n)); [assumption|lia].
        -- eapply Forall_impl; [|exact Hreq2]. intros rq Hrq.
           exists (List.length replies). split; [lia|]. unfold run_conversation.
           destruct (Nat.ltb_spec (List.length replies) (2 * n)); [lia|assumption].
      * intros k t Hk. now apply answered_earlier, Hans.
      * discriminate.
      * intros e' He'. inversion He'; subst e'.
        exists (2 # 10), max_tokens, w1. unfold run_conversation.
        destruct (Nat.ltb_spec (List.length replies) (2 * n)); [lia|assumption].
  - destruct (Hraise e eq_refl) as [Hshort [w0 Hw0]]. clear Hok Hraise.
    inversion Hrun; subst res w'.
    exists replies, evs.
    split; [assumption|]. split; [lia|].
    split; [|split; [|split]].
    + eapply Forall_impl; [|exact Hreqs]. intros rq (k & Hk1 & Hk2 & Hrq).
      exists k. split; [assumption|]. unfold run_conversation.
      destruct (Nat.ltb_spec k (2 * n)); [assumption|lia].
    + assumption.
    + discriminate.
    + intros e' He'. inversion He'; subst e'.
      exists temperature, None, w0. unfold run_conversation.
      destruct (Nat.ltb_spec (List.length replies) (2 * n)); [assumption|lia].
Qed.

End RunFacts.

(** ** The gateway: the claims *)

Lemma sleeps_app w1 w2 : sleeps (w1 ++ w2) = sleeps w1 ++ sleeps w2.
Proof.
  induction w1 as [|[rq|d] w1 IH]; simpl; [reflexivity|assumption|].
  now rewrite IH.
Qed.




(** Three failed attempts of the default call: a request, 1.5 s, a request,
    3 s, a request, and the exception of the third attempt. *)
Example chat_once_three_failures :
  chat_once always_down gpt hello default_retry default_sleep_s (7 # 10) None None []
  = (Raise connection_error,
     [EvRequest hello_request; EvSleep (default_sleep_s * 1);
      EvRequest hello_request; EvSleep (default_sleep_s * 2);
      EvRequest hello_request]).
Proof. vm_compute. reflexivity. Qed.

(** With [retry = 0] no attempt is made, and the statement after the loop
    raises on [last_err = None]. *)
Example chat_once_no_attempt :
  chat_once always_down gpt hello 0 default_sleep_s (7 # 10) None None []
  = (Raise (TypeError (u "exceptions must derive from BaseException")), []).
Proof. vm_compute. reflexivity. Qed.





(** ** The two runners are instances of the skeleton *)

Lemma debate_outcome_eq json_loads judge_raw messages :
  DebateEval.debate_outcome json_loads judge_raw messages
  = Ok (match loaded_object json_loads judge_raw with
        | Some d => dict_get d (u "winner")
        | None => JNull
        end,
        match loaded_object json_loads judge_raw with
        | Some d => dict_get d (u "rationale")
        | None => JNull
        end,
        messages).
Proof.
  unfold DebateEval.debate_outcome, loaded_object.
  rewrite force_json_eq. reflexivity.
Qed.

Lemma alignment_outcome_eq json_loads mediator_raw messages :
  DebateNojudge.alignment_outcome json_loads mediator_raw messages
  = Ok (match dict_get (match loaded_object json_loads mediator_raw with
                        | Some d => d
                        | None => []
                        end) (u "agreed") with
        | JBool b => Some b
        | _ => None
        end,
        match loaded_object json_loads mediator_raw with
        | Some (kv :: r) => Some (kv :: r)
        | _ => None
        end,
        messages).
Proof.
  unfold DebateNojudge.alignment_outcome, loaded_object.
  rewrite force_json_eq. simpl.
  destruct (match loaded json_loads (py_strip mediator_raw) with
            | Some d => Some d
            | None =>
              match snippet_of (py_strip mediator_raw) with
              | Some snippet => loaded json_loads snippet
              | None => None
              end
            end) as [[|kv r]|]; reflexivity.
Qed.

Lemma run_single_debate_post provider json_loads topic model rounds w res w' :
  DebateEval.run_single_debate provider json_loads topic model rounds w = (res, w') ->
  run_post provider DebateEval.pro_instruction DebateEval.con_instruction model
           [DebateEval.system_message topic] DebateEval.judge_prompt
           (DebateEval.debate_outcome json_loads) (Z.to_nat rounds) w res w'.
Proof.
  intros Hrun. eapply run_skeleton_post; [|exact Hrun].
  intros raw messages. rewrite debate_outcome_eq. eauto.
Qed.

Lemma run_single_alignment_post provider json_loads topic model rounds w res w' :
  DebateNojudge.run_single_alignment provider json_loads topic model rounds w = (res, w') ->
  run_post provider DebateNojudge.a_instruction DebateNojudge.b_instruction model
           [DebateNojudge.system_message topic] DebateNojudge.mediator_prompt
           (DebateNojudge.alignment_outcome json_loads) (Z.to_nat rounds) w res w'.
Proof.
  intros Hrun. eapply run_skeleton_post; [|exact Hrun].
  intros raw messages. rewrite alignment_outcome_eq. eauto.
Qed.

(** The transcript of a run that returns. *)
Lemma run_single_debate_transcript provider json_loads topic model rounds w
      winner rationale transcript w' :
  DebateEval.run_single_debate provider json_loads topic model rounds w
  = (Ok (winner, rationale, transcript), w') ->
  exists replies judge_raw,
    List.length replies = (2 * Z.to_nat rounds)%nat /\
    transcript = DebateEval.system_message topic
                   :: map (Msg assistant) replies ++ [Msg user DebateEval.judge_prompt] /\
    read_response (provider (requests w')) = Ok judge_raw /\
    DebateEval.debate_outcome json_loads judge_raw transcript
    = Ok (winner, rationale, transcript).
Proof.
  intros Hrun. apply run_single_debate_post in Hrun.
  destruct Hrun as (replies & evs & _ & _ & _ & _ & Hok & _).
  destruct (Hok _ eq_refl) as [Hlen (raw & Hout & Hlast)].
  exists replies, raw. split; [assumption|].
  assert (transcript = final_messages [DebateEval.system_message topic]
                                      DebateEval.judge_prompt replies) as ->
      by (rewrite debate_outcome_eq in Hout; congruence).
  repeat split; assumption.
Qed.

Lemma run_single_alignment_transcript provider json_loads topic model rounds w
      agreed agreement transcript w' :
  DebateNojudge.run_single_alignment provider json_loads topic model rounds w
  = (Ok (agreed, agreement, transcript), w') ->
  exists replies mediator_raw,
    List.length replies = (2 * Z.to_nat rounds)%nat /\
    transcript = DebateNojudge.system_message topic
                   :: map (Msg assistant) replies
                   ++ [Msg user DebateNojudge.mediator_prompt] /\
    read_response (provider (requests w')) = Ok mediator_raw /\
    DebateNojudge.alignment_outcome json_loads mediator_raw transcript
    = Ok (agreed, agreement, transcript).
Proof.
  intros Hrun. apply run_single_alignment_post in Hrun.
  destruct Hrun as (replies & evs & _ & _ & _ & _ & Hok & _).
  destruct (Hok _ eq_refl) as [Hlen (raw & Hout & Hlast)].
  exists replies, raw. split; [assumption|].
  assert (transcript = final_messages [DebateNojudge.system_message topic]
                                      DebateNojudge.mediator_prompt replies) as ->
      by (rewrite alignment_outcome_eq in Hout; congruence).
  repeat split; assumption.
Qed.

(** A directive of the rounds is none of the messages of a transcript. *)
Lemma directive_not_in_transcript (header prompt : str) (n : nat) :
  (forall x, firstn n (header ++ x) <> firstn n prompt) ->
  forall sys replies x,
    ~ In (Msg user (header ++ x))
         (Msg system sys :: map (Msg assistant) replies ++ [Msg user prompt]).
Proof.
  intros Hdiff sys replies x [Hsys|Hin]; [discriminate|].
  apply in_app_or in Hin. destruct Hin as [Hin|[Hin|[]]].
  - apply in_map_iff in Hin. destruct Hin as (t & Ht & _). discriminate.
  - inversion Hin as [Heq]. apply (Hdiff x). now rewrite Heq.
Qed.

(** C1, as the code has it: in the transcript a run returns, the system
    message comes first, the replies follow with role [assistant], and the
    last message is the arbitration directive, with role [user]: it is
    appended to the transcript itself.  The directives of the rounds are not
    in the transcript. *)
Theorem transcript_roles
        provider json_loads topic model rounds w winner rationale transcript w'
        provider2 json_loads2 topic2 model2 rounds2 w2 agreed agreement transcript2 w2' :
  DebateEval.run_single_debate provider json_loads topic model rounds w
  = (Ok (winner, rationale, transcript), w') ->
  DebateNojudge.run_single_alignment provider2 json_loads2 topic2 model2 rounds2 w2
  = (Ok (agreed, agreement, transcript2), w2') ->
  (exists replies,
      transcript = DebateEval.system_message topic
                     :: map (Msg assistant) replies ++ [Msg user DebateEval.judge_prompt] /\
      forall last,
        ~ In (DebateEval.pro_instruction last) transcript /\
        ~ In (DebateEval.con_instruction last) transcript) /\
  (exists replies,
      transcript2 = DebateNojudge.system_message topic2
                      :: map (Msg assistant) replies
                      ++ [Msg user DebateNojudge.mediator_prompt] /\
      forall last,
        ~ In (DebateNojudge.a_instruction last) transcript2 /\
        ~ In (DebateNojudge.b_instruction last) transcript2).
Proof.
  intros Hdebate Halign. split.
  - apply run_single_debate_transcript in Hdebate.
    destruct Hdebate as (replies & _ & _ & -> & _). exists replies.
    split; [reflexivity|]. intros last. split.
    + apply directive_not_in_transcript with (n := 13%nat).
      intros x. vm_compute. discriminate.
    + apply directive_not_in_transcript with (n := 13%nat).
      intros x. vm_compute. discriminate.
  - apply run_single_alignment_transcript in Halign.
    destruct Halign as (replies & _ & _ & -> & _). exists replies.
    split; [reflexivity|]. intros last. split.
    + apply directive_not_in_transcript with (n := 9%nat).
      intros x. vm_compute. discriminate.
    + apply directive_not_in_transcript with (n := 9%nat).
      intros x. vm_compute. discriminate.
Qed.

Lemma transcript_roles_witness :
  (exists replies,
      polite_debate_transcript
      = DebateEval.system_message mars
          :: map (Msg assistant) replies ++ [Msg user DebateEval.judge_prompt] /\
      forall last,
        ~ In (DebateEval.pro_instruction last) polite_debate_transcript /\
        ~ In (DebateEval.con_instruction last) polite_debate_transcript) /\
  (exists replies,
      polite_alignment_transcript
      = DebateNojudge.system_message mars
          :: map (Msg assistant) replies ++ [Msg user DebateNojudge.mediator_prompt] /\
      forall last,
        ~ In (DebateNojudge.a_instruction last) polite_alignment_transcript /\
        ~ In (DebateNojudge.b_instruction last) polite_alignment_transcript).
Proof.
  apply (@transcript_roles
           polite PyJson.loads mars gpt 1 [] JNull JNull polite_debate_transcript
           (snd polite_debate)
           polite PyJson.loads mars gpt 1 [] None None polite_alignment_transcript
           (snd polite_alignment)).
  - vm_compute. reflexivity.
  - vm_compute. reflexivity.
Defined.

(** C1, as the claim has it, fails: the transcript of a one-round debate
    ends with a message of role [user], the judge's directive. *)
Lemma transcript_has_user_message :
  fst polite_debate = Ok (JNull, JNull, polite_debate_transcript) /\
  map role polite_debate_transcript = [system; assistant; assistant; user] /\
  ~ Forall (fun m => role m = system \/ role m = assistant) polite_debate_transcript.
Proof.
  split; [vm_compute; reflexivity|]. split; [reflexivity|].
  intros H. rewrite Forall_forall in H.
  destruct (H (Msg user DebateEval.judge_prompt)) as [Hr|Hr]; try discriminate.
  unfold polite_debate_transcript. simpl. auto.
Qed.

(** ** A run whose provider always answers *)

Section Answering.

Variable provider : Provider.
Hypothesis answers : forall history, exists t, read_response (provider history) = Ok t.

Lemma chat_once_answers model messages temperature max_tokens w :
  exists t,
    chat_once provider model messages default_retry default_sleep_s temperature
              max_tokens None w
    = (Ok t, w ++ [EvRequest (request_of model messages temperature max_tokens None)]).
Proof.
  destruct (answers (requests
                       (w ++ [EvRequest (request_of model messages temperature
                                                    max_tokens None)])))
    as [t Ht].
  exists t. unfold chat_once.
  rewrite py_range_cons by (unfold default_retry; lia).
  cbn [chat_loop]. unfold attempt_once. now rewrite Ht.
Qed.



End Answering.




(** ** The directives of the rounds *)

Lemma debate_conversation_eq topic n replies k :
  (k < 2 * n)%nat ->
  debate_conversation topic n replies k
  = DebateEval.system_message topic
      :: map (Msg assistant) (firstn k replies)
      ++ [Msg user ((if Nat.even k then DebateEval.pro_header else DebateEval.con_header)
                    ++ embedded_text replies k)].
Proof.
  intros Hk. unfold debate_conversation, run_conversation.
  destruct (Nat.ltb_spec k (2 * n)); [|lia].
  unfold turn_messages, directive, embedded_text. simpl. do 2 f_equal.
  destruct (Nat.even k); reflexivity.
Qed.

(** C6, as the code has it: every request of a run carries the
    conversation of one turn: the transcript so far, then (before the
    arbitration) the directive of the side whose turn it is; every reply is
    the provider's answer to the conversation of its turn; and the text a
    directive embeds is taken from the reply just before it: the second
    participant's directive in round [r] from the first participant's
    reply of round [r].  That text is the reply itself when the reply is
    not empty, and the placeholder when there is no earlier reply or when
    the reply is the empty string. *)
Theorem directive_embeds_latest_reply provider json_loads topic model rounds w res w' :
  DebateEval.run_single_debate provider json_loads topic model rounds w = (res, w') ->
  exists (replies : list str) (evs : list Event),
    w' = w ++ evs /\
    Forall (fun rq =>
              exists k, (k <= List.length replies)%nat /\
                        req_messages rq
                        = debate_conversation topic (Z.to_nat rounds) replies k)
           (requests evs) /\
    (forall k t,
        nth_error replies k = Some t ->
        (k < 2 * Z.to_nat rounds)%nat /\
        answered provider w evs
                 (DebateEval.system_message topic
                    :: map (Msg assistant) (firstn k replies)
                    ++ [Msg user ((if Nat.even k
                                   then DebateEval.pro_header
                                   else DebateEval.con_header)
                                  ++ embedded_text replies k)]) t) /\
    embedded_text replies 0 = none_yet /\
    (forall k t,
        nth_error replies k = Some t ->
        embedded_text replies (S k) = match t with
                                      | [] => none_yet
                                      | c :: r => c :: r
                                      end).
Proof.
  intros Hrun. apply run_single_debate_post in Hrun.
  destruct Hrun as (replies & evs & Hw & Hlen & Hreqs & Hans & _ & _).
  exists replies, evs. split; [assumption|]. split; [exact Hreqs|]. split; [|split].
  - intros k t Hk.
    assert (k < 2 * Z.to_nat rounds)%nat as Hlt.
    { assert (k < List.length replies)%nat; [|lia].
      apply nth_error_Some. congruence. }
    split; [assumption|].
    rewrite <- (@debate_conversation_eq topic (Z.to_nat rounds)) by assumption.
    unfold debate_conversation, run_conversation.
    destruct (Nat.ltb_spec k (2 * Z.to_nat rounds)); [|lia]. now apply Hans.
  - reflexivity.
  - intros k t Hk. unfold embedded_text, previous_reply. rewrite Hk.
    destruct t; reflexivity.
Qed.

Lemma directive_embeds_latest_reply_witness :
  exists (replies : list str) (evs : list Event),
    snd exchange_debate = [] ++ evs /\
    Forall (fun rq =>
              exists k, (k <= List.length replies)%nat /\
                        req_messages rq = debate_conversation mars (Z.to_nat 1) replies k)
           (requests evs) /\
    (forall k t,
        nth_error replies k = Some t ->
        (k < 2 * Z.to_nat 1)%nat /\
        answered exchange [] evs
                 (DebateEval.system_message mars
                    :: map (Msg assistant) (firstn k replies)
                    ++ [Msg user ((if Nat.even k
                                   then DebateEval.pro_header
                                   else DebateEval.con_header)
                                  ++ embedded_text replies k)]) t) /\
    embedded_text replies 0 = none_yet /\
    (forall k t,
        nth_error replies k = Some t ->
        embedded_text replies (S k) = match t with
                                      | [] => none_yet
                                      | c :: r => c :: r
                                      end).
Proof.
  apply (@directive_embeds_latest_reply exchange PyJson.loads mars gpt 1 []
                                        (fst exchange_debate) (snd exchange_debate)).
  vm_compute. reflexivity.
Defined.

(** The conversations of a one-round debate whose sides answer with text:
    CON is shown PRO's reply of the same round. *)
Example exchange_conversations :
  map req_messages (requests (snd exchange_debate))
  = [ [ DebateEval.system_message mars;
        Msg user (DebateEval.pro_header ++ none_yet) ];
      [ DebateEval.system_message mars; Msg assistant (u "PRO: go.");
        Msg user (DebateEval.con_header ++ u "PRO: go.") ];
      [ DebateEval.system_message mars; Msg assistant (u "PRO: go.");
        Msg assistant (u "CON: stay."); Msg user DebateEval.judge_prompt ] ].
Proof. vm_compute. reflexivity. Qed.

(** C6, as the claim has it, fails: the provider answers with an empty
    content.  The conversation sent to CON holds PRO's turn of the round,
    and yet CON's directive shows the placeholder. *)
Lemma placeholder_despite_opposing_turn :
  map req_messages (requests (snd silent_debate))
  = [ [ DebateEval.system_message mars;
        Msg user (DebateEval.pro_header ++ none_yet) ];
      [ DebateEval.system_message mars; Msg assistant [];
        Msg user (DebateEval.con_header ++ none_yet) ];
      [ DebateEval.system_message mars; Msg assistant []; Msg assistant [];
        Msg user DebateEval.judge_prompt ] ] /\
  DebateEval.con_instruction (Some []) <> Msg user (DebateEval.con_header ++ []) /\
  ~ (forall last : option str,
        or_none_yet last = none_yet <-> last = None).
Proof.
  split; [vm_compute; reflexivity|]. split.
  - vm_compute. discriminate.
  - intros H. destruct (H (Some [])) as [H1 _].
    specialize (H1 eq_refl). discriminate.
Qed.

(** ** Failed runs *)





(** ** The fields of the outcome *)

Lemma force_json_loaded json_loads s :
  force_json json_loads s = Ok (loaded_object json_loads s).
Proof. unfold loaded_object. now rewrite force_json_eq. Qed.





(** C5: the [agreed] of a run is a boolean exactly when the recovered
    mapping holds a boolean under ["agreed"], and it is that boolean;
    otherwise it is [None].  In the record an explicit [false] and an
    unknown stay apart under the key [agreed], while the back-compatible
    key [winner] reads ["none"] for both. *)
Theorem agreed_only_genuine_boolean
        provider json_loads (py_format : JValue -> str) topic model rounds w
        agreed agreement transcript w' :
  DebateNojudge.run_single_alignment provider json_loads topic model rounds w
  = (Ok (agreed, agreement, transcript), w') ->
  (exists mediator_raw,
      read_response (provider (requests w')) = Ok mediator_raw /\
      forall b,
        agreed = Some b <->
        exists d, force_json json_loads mediator_raw = Ok (Some d) /\
                  dict_get d (u "agreed") = JBool b) /\
  (forall now run_id (agreement_obj : option dict) (file : list DebateNojudge.RunLog),
      exists explicit_false unknown,
        DebateNojudge.save_run_log py_format now topic model rounds run_id
                                   (Some false) agreement_obj transcript file
        = file ++ [explicit_false] /\
        DebateNojudge.save_run_log py_format now topic model rounds run_id
                                   None agreement_obj transcript file
        = file ++ [unknown] /\
        DebateNojudge.agreed explicit_false = Some false /\
        DebateNojudge.agreed unknown = None /\
        DebateNojudge.winner explicit_false = u "none" /\
        DebateNojudge.winner unknown = u "none").
Proof.
  intros Hrun. split.
  - destruct (run_single_alignment_transcript Hrun)
      as (replies & raw & _ & _ & Hlast & Hout).
    exists raw. split; [assumption|]. intros b.
    rewrite alignment_outcome_eq in Hout. rewrite force_json_loaded.
    inversion Hout as [[Hagreed Hagreement]]. clear Hout Hagreement.
    destruct (loaded_object json_loads raw) as [d|].
    + split.
      * intros Hb. exists d. split; [reflexivity|].
        destruct (dict_get d (u "agreed")); congruence.
      * intros (d' & Hd' & Hget). inversion Hd'; subst d'. now rewrite Hget.
    + split; [discriminate|]. intros (d' & Hd' & _). discriminate.
  - intros now run_id agreement_obj file.
    unfold DebateNojudge.save_run_log, DebateNojudge.back_compat.
    eexists. eexists. repeat split.
Qed.

Lemma agreed_only_genuine_boolean_witness :
  (exists mediator_raw,
      read_response (scripted [] (says refusal_text) (requests (snd refusal_mediation)))
      = Ok mediator_raw /\
      forall b,
        Some false = Some b <->
        exists d, force_json PyJson.loads mediator_raw = Ok (Some d) /\
                  dict_get d (u "agreed") = JBool b) /\
  (forall now run_id (agreement_obj : option dict) (file : list DebateNojudge.RunLog),
      exists explicit_false unknown,
        DebateNojudge.save_run_log PyJson.str_of_scalar now mars gpt 0 run_id
                                   (Some false) agreement_obj
                                   [DebateNojudge.system_message mars;
                                    Msg user DebateNojudge.mediator_prompt] file
        = file ++ [explicit_false] /\
        DebateNojudge.save_run_log PyJson.str_of_scalar now mars gpt 0 run_id
                                   None agreement_obj
                                   [DebateNojudge.system_message mars;
                                    Msg user DebateNojudge.mediator_prompt] file
        = file ++ [unknown] /\
        DebateNojudge.agreed explicit_false = Some false /\
        DebateNojudge.agreed unknown = None /\
        DebateNojudge.winner explicit_false = u "none" /\
        DebateNojudge.winner unknown = u "none").
Proof.
  apply (@agreed_only_genuine_boolean
           (scripted [] (says refusal_text)) PyJson.loads PyJson.str_of_scalar
           mars gpt 0 [] (Some false)
           (Some [(u "agreed", JBool false); (u "decision", JStr (u "none"))])
           [DebateNojudge.system_message mars; Msg user DebateNojudge.mediator_prompt]
           (snd refusal_mediation)).
  vm_compute. reflexivity.
Defined.

(** An explicit [false], a number in the place of the boolean, and a reply
    without JSON. *)
Example agreed_explicit_false :
  DebateNojudge.alignment_outcome PyJson.loads refusal_text []
  = Ok (Some false,
        Some [(u "agreed", JBool false); (u "decision", JStr (u "none"))], []).
Proof. vm_compute. reflexivity. Qed.

Example agreed_not_a_boolean :
  DebateNojudge.alignment_outcome PyJson.loads (u "{" ++ q "agreed" ++ u ": 0}") []
  = Ok (None, Some [(u "agreed", JInt 0)], []).
Proof. vm_compute. reflexivity. Qed.

Example agreed_unrecovered :
  DebateNojudge.alignment_outcome PyJson.loads noted [] = Ok (None, None, []).
Proof. vm_compute. reflexivity. Qed.

(** C10: the agreement object of a run is [None] when the mediator's reply
    decodes to the empty mapping, as it is when nothing is recovered; it is
    an object exactly when a non-empty mapping is recovered, and then it is
    that mapping. *)
Theorem empty_mapping_is_absent
        provider json_loads topic model rounds w agreed agreement transcript w' :
  DebateNojudge.run_single_alignment provider json_loads topic model rounds w
  = (Ok (agreed, agreement, transcript), w') ->
  exists mediator_raw,
    read_response (provider (requests w')) = Ok mediator_raw /\
    (force_json json_loads mediator_raw = Ok (Some []) -> agreement = None) /\
    (force_json json_loads mediator_raw = Ok None -> agreement = None) /\
    (agreement <> None <->
     exists kv r, force_json json_loads mediator_raw = Ok (Some (kv :: r))) /\
    (forall d, agreement = Some d -> force_json json_loads mediator_raw = Ok (Some d)).
Proof.
  intros Hrun.
  destruct (run_single_alignment_transcript Hrun)
    as (replies & raw & _ & _ & Hlast & Hout).
  exists raw. split; [assumption|].
  rewrite alignment_outcome_eq in Hout. rewrite force_json_loaded.
  inversion Hout as [[Hagreed Hagreement]]. clear Hout Hagreed.
  destruct (loaded_object json_loads raw) as [[|kv r]|]; repeat split;
    try congruence; try discriminate; eauto.
  - intros H. now destruct H.
  - intros (kv & r & H). discriminate.
  - intros H. now destruct H.
  - intros (kv & r & H). discriminate.
Qed.

Lemma empty_mapping_is_absent_witness :
  exists mediator_raw,
    read_response (scripted [] (says empty_object) (requests (snd empty_object_mediation)))
    = Ok mediator_raw /\
    (force_json PyJson.loads mediator_raw = Ok (Some []) -> @None dict = None) /\
    (force_json PyJson.loads mediator_raw = Ok None -> @None dict = None) /\
    (@None dict <> None <->
     exists kv r, force_json PyJson.loads mediator_raw = Ok (Some (kv :: r))) /\
    (forall d, None = Some d -> force_json PyJson.loads mediator_raw = Ok (Some d)).
Proof.
  apply (@empty_mapping_is_absent
           (scripted [] (says empty_object)) PyJson.loads mars gpt 0 [] None None
           [DebateNojudge.system_message mars; Msg user DebateNojudge.mediator_prompt]
           (snd empty_object_mediation)).
  vm_compute. reflexivity.
Defined.

Example empty_object_recovered : force_json PyJson.loads empty_object = Ok (Some []).
Proof. vm_compute. reflexivity. Qed.

Example empty_object_outcome :
  DebateNojudge.alignment_outcome PyJson.loads empty_object [] = Ok (None, None, []).
Proof. vm_compute. reflexivity. Qed.

(** * Further properties *)

(** ** The gateway: backoff and recovery *)






(** ** The extractor: what is recovered, and from where *)

Lemma py_find_decompose_first c s :
  py_find c s <> (-1)%Z ->
  exists p q, s = p ++ c :: q /\ ~ In c p.
Proof.
  induction s as [|x r IH]; simpl; intros H; [congruence|].
  destruct (N.eqb_spec x c) as [->|Hne].
  - exists [], r. auto.
  - destruct (Z.eqb_spec (py_find c r) (-1)) as [|Hr]; [congruence|].
    destruct (IH Hr) as (p & q & -> & Hp).
    exists (x :: p), q. split; [reflexivity|]. simpl. tauto.
Qed.

Lemma py_rfind_none c s : py_rfind c s = (-1)%Z -> ~ In c s.
Proof.
  induction s as [|x r IH]; simpl; [tauto|].
  pose proof (@py_rfind_bounds c r) as Hb.
  destruct (Z.eqb_spec (py_rfind c r) (-1)) as [Hr|Hr]; [|lia].
  destruct (N.eqb_spec x c) as [->|Hne]; [discriminate|].
  intros _ [Hx|Hin]; [congruence|]. now apply IH.
Qed.

Lemma py_rfind_decompose_last c s :
  py_rfind c s <> (-1)%Z ->
  exists p q, s = p ++ c :: q /\ ~ In c q.
Proof.
  induction s as [|x r IH]; simpl; intros H; [congruence|].
  destruct (Z.eqb_spec (py_rfind c r) (-1)) as [Hr|Hr].
  - destruct (N.eqb_spec x c) as [->|Hne]; [|congruence].
    exists [], r. split; [reflexivity|]. now apply py_rfind_none.
  - destruct (IH Hr) as (p & q & Heq & Hq).
    exists (x :: p), q. split; [now rewrite Heq at 1|assumption].
Qed.

(** The slice of the fallback runs from the first opening brace to the last
    closing brace. *)
Lemma snippet_of_decompose t sn :
  snippet_of t = Some sn ->
  exists x y z,
    t = x ++ lbrace :: y ++ rbrace :: z /\
    ~ In lbrace x /\ ~ In rbrace z /\ sn = lbrace :: y ++ [rbrace].
Proof.
  intros Hsn. pose proof Hsn as H. unfold snippet_of in H.
  destruct (Z.eqb_spec (py_find lbrace t) (-1)) as [|Hf]; [discriminate|].
  destruct (Z.eqb_spec (py_rfind rbrace t) (-1)) as [|Hr]; [discriminate|].
  simpl in H.
  destruct (Z.gtb_spec (py_rfind rbrace t) (py_find lbrace t)) as [Hlt|]; [|discriminate].
  clear H.
  destruct (py_find_decompose_first Hf) as (p1 & q1 & H1 & Hp1).
  destruct (py_rfind_decompose_last Hr) as (p2 & q2 & H2 & Hq2).
  assert (py_find lbrace t = Z.of_nat (List.length p1)) as Hlen1
      by (rewrite H1; now apply py_find_first).
  assert (py_rfind rbrace t = Z.of_nat (List.length p2)) as Hlen2
      by (rewrite H2; now apply py_rfind_last).
  assert (List.length p1 < List.length p2)%nat as Hlen by lia.
  assert (p1 ++ lbrace :: q1 = p2 ++ rbrace :: q2) as Heq by congruence.
  destruct (app_cons_between Heq Hlen) as [y Hy].
  exists p1, y, q2. subst q1. split; [assumption|]. split; [assumption|].
  split; [assumption|].
  rewrite H1, snippet_of_intro in Hsn by assumption. congruence.
Qed.

(** X3: what [force_json] returns is always an object [json.loads] has
    decoded, from the stripped text or else from the text between its first
    opening and its last closing brace, never from an inner part; and it
    returns such an object whenever there is one. *)
Theorem force_json_sound_and_complete (json_loads : str -> Result JValue) (s : str) (d : dict) :
  force_json json_loads s = Ok (Some d) <->
  json_loads (py_strip s) = Ok (JDict d) \/
  ((forall d', json_loads (py_strip s) <> Ok (JDict d')) /\
   exists x y z,
     s = x ++ lbrace :: y ++ rbrace :: z /\
     ~ In lbrace x /\ ~ In rbrace z /\
     json_loads (lbrace :: y ++ [rbrace]) = Ok (JDict d)).
Proof.
  rewrite force_json_eq. split.
  - intros H. inversion H as [Hd]. clear H.
    destruct (loaded json_loads (py_strip s)) as [d0|] eqn:Hfast.
    + left. apply loaded_dict. congruence.
    + right. split.
      * intros d' Hd'. apply loaded_dict in Hd'. congruence.
      * rewrite snippet_of_strip in Hd.
        destruct (snippet_of s) as [sn|] eqn:Hsn; [|discriminate].
        destruct (snippet_of_decompose Hsn) as (x & y & z & Hs & Hx & Hz & ->).
        exists x, y, z. repeat split; try assumption. now apply loaded_dict.
  - intros [Hfast|[Hnot (x & y & z & Hs & Hx & Hz & Hsn)]].
    + apply loaded_dict in Hfast. now rewrite Hfast.
    + destruct (loaded json_loads (py_strip s)) as [d0|] eqn:Hfast.
      * apply loaded_dict in Hfast. now destruct (Hnot d0).
      * rewrite snippet_of_strip, Hs, snippet_of_intro by assumption.
        apply loaded_dict in Hsn. now rewrite Hsn.
Qed.

(** X4: prose around the object does not matter: when the text holds an
    object that [json.loads] decodes, with no opening brace before it and
    no closing brace after it, [force_json] returns this object. *)
Theorem force_json_ignores_prose
        (json_loads : str -> Result JValue) (before body after : str) (d : dict) :
  objects_are_braced json_loads ->
  ~ In lbrace before ->
  ~ In rbrace after ->
  json_loads (lbrace :: body ++ [rbrace]) = Ok (JDict d) ->
  force_json json_loads (before ++ lbrace :: body ++ rbrace :: after) = Ok (Some d).
Proof.
  intros Hjson Hbefore Hafter Hobj.
  set (s := before ++ lbrace :: body ++ rbrace :: after).
  assert (snippet_of (py_strip s) = Some (lbrace :: body ++ [rbrace])) as Hsn
      by (rewrite snippet_of_strip; now apply snippet_of_intro).
  rewrite force_json_eq.
  destruct (loaded json_loads (py_strip s)) as [d0|] eqn:Hfast.
  - apply loaded_dict in Hfast.
    pose proof (braced_strip_snippet (Hjson _ _ Hfast)) as Hwhole.
    rewrite Hsn in Hwhole. inversion Hwhole as [Heq].
    rewrite <- Heq in Hfast. congruence.
  - rewrite Hsn. apply loaded_dict in Hobj. now rewrite Hobj.
Qed.

Lemma force_json_ignores_prose_witness :
  force_json PyJson.loads
             (u "Verdict: " ++ lbrace :: (q "winner" ++ u ":" ++ q "tie") ++ rbrace
                :: u " (final)")
  = Ok (Some [(u "winner", JStr (u "tie"))]).
Proof.
  apply (@force_json_ignores_prose PyJson.loads (u "Verdict: ")
                                   (q "winner" ++ u ":" ++ q "tie") (u " (final)")).
  - exact PyJson_objects_are_braced.
  - vm_compute. intuition discriminate.
  - vm_compute. intuition discriminate.
  - vm_compute. reflexivity.
Defined.

Lemma py_lstrip_app a b :
  py_lstrip (a ++ b)
  = match py_lstrip a with
    | [] => py_lstrip b
    | x :: r => (x :: r) ++ b
    end.
Proof.
  induction a as [|y a IH]; simpl; [reflexivity|].
  destruct (py_isspace y); [assumption|reflexivity].
Qed.

Lemma py_lstrip_spaces a : forallb py_isspace a = true -> py_lstrip a = [].
Proof.
  induction a as [|y a IH]; simpl; [reflexivity|].
  destruct (py_isspace y); [assumption|discriminate].
Qed.

Lemma py_rstrip_app_spaces a post :
  forallb py_isspace post = true -> py_rstrip (a ++ post) = py_rstrip a.
Proof.
  intros Hpost. unfold py_rstrip. rewrite rev_app_distr, py_lstrip_app.
  rewrite py_lstrip_spaces; [reflexivity|].
  rewrite forallb_forall in *. intros x Hx. apply Hpost. now apply in_rev.
Qed.

Lemma py_strip_spaces pre s post :
  forallb py_isspace pre = true -> forallb py_isspace post = true ->
  py_strip (pre ++ s ++ post) = py_strip s.
Proof.
  intros Hpre Hpost. unfold py_strip.
  rewrite py_lstrip_app, (py_lstrip_spaces Hpre), py_lstrip_app.
  destruct (py_lstrip s) as [|x r].
  - now rewrite (py_lstrip_spaces Hpost).
  - now apply py_rstrip_app_spaces.
Qed.

(** X5: whitespace around the text, in the sense of [str.strip] (the
    no-break space and the other Unicode spaces included), never changes
    what [force_json] returns. *)
Theorem force_json_ignores_outer_whitespace
        (json_loads : str -> Result JValue) (pre s post : str) :
  forallb py_isspace pre = true ->
  forallb py_isspace post = true ->
  force_json json_loads (pre ++ s ++ post) = force_json json_loads s.
Proof.
  intros Hpre Hpost. rewrite !force_json_eq.
  now rewrite (py_strip_spaces s Hpre Hpost).
Qed.

Lemma force_json_ignores_outer_whitespace_witness :
  force_json PyJson.loads ([160; 10]%N ++ tie_text ++ [32; 8195; 13]%N)
  = force_json PyJson.loads tie_text.
Proof.
  apply (@force_json_ignores_outer_whitespace PyJson.loads [160; 10]%N tie_text
                                              [32; 8195; 13]%N).
  - vm_compute. reflexivity.
  - vm_compute. reflexivity.
Defined.

(** Two objects in one reply are not told apart: the slice spans both and
    is not JSON.  A list around one object yields the object. *)
Example force_json_two_objects :
  force_json PyJson.loads (tie_text ++ u " or " ++ tie_text) = Ok None.
Proof. vm_compute. reflexivity. Qed.

Example force_json_list_of_one_object :
  force_json PyJson.loads (u "[" ++ tie_text ++ u "]")
  = Ok (Some [(u "winner", JStr (u "tie"))]).
Proof. vm_compute. reflexivity. Qed.

(** ** The runs: requests, sampling parameters, transcript *)

Lemma chat_once_requests provider model messages retry sleep_s temperature
      max_tokens response_format w res w' :
  chat_once provider model messages retry sleep_s temperature max_tokens response_format w
  = (res, w') ->
  exists n : nat,
    requests w' = requests w
                  ++ repeat (request_of model messages temperature max_tokens
                                        response_format) n /\
    (n <= Z.to_nat retry)%nat /\
    (forall t, res = Ok t -> (1 <= n)%nat).
Proof.
  intros Hrun. apply chat_once_attempts in Hrun.
  destruct Hrun as (n & Hn & Hw & _ & _ & Hok & _).
  exists n. rewrite Hw, requests_app, requests_retry_trace. auto.
Qed.

Section RequestFacts.

Variable provider : Provider.
Variables first_instruction second_instruction : option str -> Message.
Variables (temperature : Q) (model : str).

Lemma round_request_first messages last :
  round_request first_instruction second_instruction temperature model
                (request_of model (messages ++ [first_instruction last])
                            temperature None None).
Proof.
  unfold round_request, request_of. simpl. repeat split.
  exists messages, last. now left.
Qed.

Lemma round_request_second messages last :
  round_request first_instruction second_instruction temperature model
                (request_of model (messages ++ [second_instruction last])
                            temperature None None).
Proof.
  unfold round_request, request_of. simpl. repeat split.
  exists messages, last. now right.
Qed.

Lemma Forall_repeat (P : Request -> Prop) rq n : P rq -> Forall P (repeat rq n).
Proof.
  intros H. apply Forall_forall. intros x Hx. apply repeat_spec in Hx. now subst.
Qed.

Lemma rounds_loop_requests n :
  forall messages last_first last_second w res w',
    rounds_loop provider first_instruction second_instruction temperature model
                n messages last_first last_second w = (res, w') ->
    exists new,
      requests w' = requests w ++ new /\
      (List.length new <= 3 * (2 * n))%nat /\
      (forall st, res = Ok st -> (2 * n <= List.length new)%nat) /\
      Forall (round_request first_instruction second_instruction temperature model) new.
Proof.
  induction n as [|n IH]; intros messages lf ls w res w' Hrun.
  - simpl in Hrun. unfold ret in Hrun. inversion Hrun; subst.
    exists []. rewrite app_nil_r. simpl. auto.
  - cbn [rounds_loop] in Hrun. unfold bind in Hrun at 1.
    destruct (chat_once provider model (messages ++ [first_instruction ls])
                        default_retry default_sleep_s temperature None None w)
      as [[a|e] w1] eqn:Hfirst;
      destruct (chat_once_requests Hfirst) as (n1 & Hw1 & Hn1 & Hok1).
    + specialize (Hok1 a eq_refl). unfold bind in Hrun at 1.
      destruct (chat_once provider model
                          ((messages ++ [Msg assistant a]) ++ [second_instruction (Some a)])
                          default_retry default_sleep_s temperature None None w1)
        as [[b|e] w2] eqn:Hsecond;
        destruct (chat_once_requests Hsecond) as (n2 & Hw2 & Hn2 & Hok2).
      * specialize (Hok2 b eq_refl). apply IH in Hrun.
        destruct Hrun as (new & Hw' & Hlen & Hmin & Hall).
        eexists. split; [rewrite Hw', Hw2, Hw1, <- !app_assoc; reflexivity|].
        rewrite !length_app, !repeat_length. unfold default_retry in *.
        split; [lia|]. split; [intros st Hst; specialize (Hmin st Hst); lia|].
        apply Forall_app; split; [apply Forall_repeat, round_request_first|].
        apply Forall_app; split; [|assumption].
        apply Forall_repeat. rewrite app_assoc. apply round_request_second.
      * inversion Hrun; subst res w'.
        eexists. split; [rewrite Hw2, Hw1, <- !app_assoc; reflexivity|].
        rewrite !length_app, !repeat_length. unfold default_retry in *.
        split; [lia|]. split; [discriminate|].
        apply Forall_app; split; [apply Forall_repeat, round_request_first|].
        apply Forall_repeat. rewrite app_assoc. apply round_request_second.
    + inversion Hrun; subst res w'.
      eexists. split; [exact Hw1|].
      rewrite repeat_length. unfold default_retry in *.
      split; [lia|]. split; [discriminate|].
      apply Forall_repeat, round_request_first.
Qed.

Variables (A : Type) (base : list Message) (prompt : str) (max_tokens : option Z).
Variable outcome : str -> list Message -> Result A.

Lemma run_skeleton_requests n w res w' :
  run_skeleton provider first_instruction second_instruction temperature model
               base prompt max_tokens outcome n w = (res, w') ->
  exists new,
    requests w' = requests w ++ new /\
    (List.length new <= 3 * (2 * n + 1))%nat /\
    (forall r, res = Ok r -> (2 * n + 1 <= List.length new)%nat) /\
    Forall (fun rq =>
              round_request first_instruction second_instruction temperature model rq \/
              arbitration_request prompt max_tokens model rq) new.
Proof.
  unfold run_skeleton. unfold bind at 1. intros Hrun.
  destruct (rounds_loop provider first_instruction second_instruction temperature model
                        n base None None w) as [[st|e] w1] eqn:Hrounds;
    apply rounds_loop_requests in Hrounds;
    destruct Hrounds as (new1 & Hw1 & Hlen1 & Hmin1 & Hall1).
  - specialize (Hmin1 st eq_refl). unfold bind in Hrun.
    destruct (chat_once provider model (fst (fst st) ++ [Msg user prompt])
                        default_retry default_sleep_s (2 # 10) max_tokens None w1)
      as [[raw|e] w2] eqn:Hjudge;
      destruct (chat_once_requests Hjudge) as (n2 & Hw2 & Hn2 & Hok2).
    + specialize (Hok2 raw eq_refl). unfold lift in Hrun. inversion Hrun; subst w'.
      eexists. split; [rewrite Hw2, Hw1, <- app_assoc; reflexivity|].
      rewrite length_app, repeat_length. unfold default_retry in *.
      split; [lia|]. split; [intros; lia|].
      apply Forall_app; split.
      * eapply Forall_impl; [|exact Hall1]. auto.
      * apply Forall_repeat. right.
        unfold arbitration_request, request_of. simpl. repeat split.
        now exists (fst (fst st)).
    + inversion Hrun; subst res w'.
      eexists. split; [rewrite Hw2, Hw1, <- app_assoc; reflexivity|].
      rewrite length_app, repeat_length. unfold default_retry in *.
      split; [lia|]. split; [discriminate|].
      apply Forall_app; split.
      * eapply Forall_impl; [|exact Hall1]. auto.
      * apply Forall_repeat. right.
        unfold arbitration_request, request_of. simpl. repeat split.
        now exists (fst (fst st)).
  - inversion Hrun; subst res w'.
    exists new1. split; [assumption|]. split; [lia|]. split; [discriminate|].
    eapply Forall_impl; [|exact Hall1]. auto.
Qed.

End RequestFacts.

(** X6: a debate of [rounds] rounds sends the provider at most
    [3 * (2 * rounds + 1)] requests, whatever the provider does, and at
    least [2 * rounds + 1] when it returns; for [rounds <= 0] the judge is
    still asked, about a debate without turns. *)
Theorem debate_request_budget provider json_loads topic model rounds w res w' :
  DebateEval.run_single_debate provider json_loads topic model rounds w = (res, w') ->
  exists new,
    requests w' = requests w ++ new /\
    (Z.of_nat (List.length new) <= 3 * (2 * Z.max 0 rounds + 1))%Z /\
    (forall r, res = Ok r -> (2 * Z.max 0 rounds + 1 <= Z.of_nat (List.length new))%Z).
Proof.
  intros Hrun. apply run_skeleton_requests in Hrun.
  destruct Hrun as (new & Hw & Hlen & Hmin & _).
  exists new. split; [assumption|]. split; [lia|].
  intros r Hr. specialize (Hmin r Hr). lia.
Qed.

Lemma debate_request_budget_witness :
  exists new,
    requests (snd cut_off_debate) = requests [] ++ new /\
    (Z.of_nat (List.length new) <= 3 * (2 * Z.max 0 1 + 1))%Z /\
    (forall r, fst cut_off_debate = Ok r ->
               (2 * Z.max 0 1 + 1 <= Z.of_nat (List.length new))%Z).
Proof.
  apply (@debate_request_budget cut_off PyJson.loads mars gpt 1 []).
  vm_compute. reflexivity.
Defined.

(** X7: every request of a debate names the model of the run and asks for
    no response format; the requests of the rounds end with PRO's or CON's
    directive and are sampled at temperature 0.7 without a cap on the
    output, the request of the judge ends with the judge's directive and is
    sampled at 0.2 with at most 128 tokens. *)
Theorem debate_sampling_parameters provider json_loads topic model rounds w res w' :
  DebateEval.run_single_debate provider json_loads topic model rounds w = (res, w') ->
  exists new,
    requests w' = requests w ++ new /\
    Forall (fun rq =>
              round_request DebateEval.pro_instruction DebateEval.con_instruction
                            (7 # 10) model rq \/
              arbitration_request DebateEval.judge_prompt (Some 128%Z) model rq) new.
Proof.
  intros Hrun. apply run_skeleton_requests in Hrun.
  destruct Hrun as (new & Hw & _ & _ & Hall). eauto.
Qed.

Lemma debate_sampling_parameters_witness :
  exists new,
    requests (snd exchange_debate) = requests [] ++ new /\
    Forall (fun rq =>
              round_request DebateEval.pro_instruction DebateEval.con_instruction
                            (7 # 10) gpt rq \/
              arbitration_request DebateEval.judge_prompt (Some 128%Z) gpt rq) new.
Proof.
  apply (@debate_sampling_parameters exchange PyJson.loads mars gpt 1 []
                                     (fst exchange_debate)).
  vm_compute. reflexivity.
Defined.

(** X8: the same for a mediation: the rounds at temperature 0.6 without a
    cap, the mediator at 0.2 with at most 256 tokens; and the same budget of
    requests. *)
Theorem alignment_requests provider json_loads topic model rounds w res w' :
  DebateNojudge.run_single_alignment provider json_loads topic model rounds w
  = (res, w') ->
  exists new,
    requests w' = requests w ++ new /\
    (Z.of_nat (List.length new) <= 3 * (2 * Z.max 0 rounds + 1))%Z /\
    (forall r, res = Ok r -> (2 * Z.max 0 rounds + 1 <= Z.of_nat (List.length new))%Z) /\
    Forall (fun rq =>
              round_request DebateNojudge.a_instruction DebateNojudge.b_instruction
                            (6 # 10) model rq \/
              arbitration_request DebateNojudge.mediator_prompt (Some 256%Z) model rq)
           new.
Proof.
  intros Hrun. apply run_skeleton_requests in Hrun.
  destruct Hrun as (new & Hw & Hlen & Hmin & Hall).
  exists new. split; [assumption|]. split; [lia|]. split; [|assumption].
  intros r Hr. specialize (Hmin r Hr). lia.
Qed.

Lemma alignment_requests_witness :
  exists new,
    requests (snd polite_alignment) = requests [] ++ new /\
    (Z.of_nat (List.length new) <= 3 * (2 * Z.max 0 1 + 1))%Z /\
    (forall r, fst polite_alignment = Ok r ->
               (2 * Z.max 0 1 + 1 <= Z.of_nat (List.length new))%Z) /\
    Forall (fun rq =>
              round_request DebateNojudge.a_instruction DebateNojudge.b_instruction
                            (6 # 10) gpt rq \/
              arbitration_request DebateNojudge.mediator_prompt (Some 256%Z) gpt rq)
           new.
Proof.
  apply (@alignment_requests polite PyJson.loads mars gpt 1 []).
  vm_compute. reflexivity.
Defined.

(** X9: the transcript only grows: every conversation sent during a debate
    that returns is, up to its last message (the directive), a beginning
    of the transcript the run returns. *)
Theorem debate_transcript_append_only
        provider json_loads topic model rounds w winner rationale transcript w' :
  DebateEval.run_single_debate provider json_loads topic model rounds w
  = (Ok (winner, rationale, transcript), w') ->
  exists new,
    requests w' = requests w ++ new /\
    Forall (fun rq =>
              exists rest,
                removelast transcript = removelast (req_messages rq) ++ rest) new.
Proof.
  intros Hrun. pose proof (run_single_debate_post Hrun) as Hpost.
  destruct Hpost as (replies & evs & Hw & _ & Hreqs & _ & Hok & _).
  destruct (Hok _ eq_refl) as [_ (raw & Hout & _)].
  rewrite debate_outcome_eq in Hout.
  assert (transcript = final_messages [DebateEval.system_message topic]
                                      DebateEval.judge_prompt replies) as ->
      by congruence.
  exists (requests evs). split; [now rewrite Hw, requests_app|].
  eapply Forall_impl; [|exact Hreqs]. intros rq (k & _ & Hrq). rewrite Hrq.
  unfold final_messages. rewrite removelast_last.
  unfold run_conversation.
  destruct (k <? 2 * Z.to_nat rounds)%nat.
  - unfold turn_messages. rewrite app_assoc, removelast_last.
    exists (map (Msg assistant) (skipn k replies)).
    rewrite <- app_assoc, <- map_app, firstn_skipn. reflexivity.
  - unfold final_messages. rewrite removelast_last. exists []. now rewrite app_nil_r.
Qed.

Lemma debate_transcript_append_only_witness :
  exists new,
    requests (snd exchange_debate) = requests [] ++ new /\
    Forall (fun rq =>
              exists rest,
                removelast exchange_transcript = removelast (req_messages rq) ++ rest) new.
Proof.
  apply (@debate_transcript_append_only exchange PyJson.loads mars gpt 1 []
                                        (JStr (u "tie")) JNull).
  vm_compute. reflexivity.
Defined.

Section AnsweredTrace.

Variable provider : Provider.
Hypothesis answers : forall history, exists t, read_response (provider history) = Ok t.

Lemma rounds_loop_answered_trace first_instruction second_instruction temperature model n :
  forall messages last_first last_second w,
  exists st reqs,
    rounds_loop provider first_instruction second_instruction temperature model
                n messages last_first last_second w
    = (Ok st, w ++ map EvRequest reqs) /\
    List.length reqs = (2 * n)%nat.
Proof.
  induction n as [|n IH]; intros messages lf ls w.
  - exists (messages, lf, ls), []. simpl. unfold ret. now rewrite app_nil_r.
  - cbn [rounds_loop]. unfold bind at 1.
    destruct (chat_once_answers answers model (messages ++ [first_instruction ls])
                                temperature None w) as [a ->].
    unfold bind at 1.
    destruct (chat_once_answers answers model
                ((messages ++ [Msg assistant a]) ++ [second_instruction (Some a)])
                temperature None
                (w ++ [EvRequest (request_of model (messages ++ [first_instruction ls])
                                             temperature None None)])) as [b ->].
    match goal with
    | |- exists st reqs, rounds_loop _ _ _ _ _ _ ?m ?l1 ?l2 ?w0 = _ /\ _ =>
      destruct (IH m l1 l2 w0) as (st & reqs & -> & Hlen)
    end.
    eexists. eexists (_ :: _ :: reqs). split.
    + rewrite <- !app_assoc. reflexivity.
    + simpl. lia.
Qed.

Lemma run_skeleton_answered_trace (A : Type) first_instruction second_instruction
      temperature model base prompt max_tokens
      (outcome : str -> list Message -> Result A) n w :
  (forall raw messages, exists r, outcome raw messages = Ok r) ->
  exists r reqs,
    run_skeleton provider first_instruction second_instruction temperature model
                 base prompt max_tokens outcome n w
    = (Ok r, w ++ map EvRequest reqs) /\
    List.length reqs = (2 * n + 1)%nat.
Proof.
  intros Hout. unfold run_skeleton. unfold bind at 1.
  destruct (rounds_loop_answered_trace first_instruction second_instruction temperature
                                       model n base None None w)
    as (st & reqs & -> & Hlen).
  unfold bind.
  destruct (chat_once_answers answers model (fst (fst st) ++ [Msg user prompt]) (2 # 10)
                              max_tokens (w ++ map EvRequest reqs)) as [raw ->].
  destruct (Hout raw (fst (fst st) ++ [Msg user prompt])) as [r Hr].
  unfold lift. rewrite Hr.
  exists r, (reqs ++ [request_of model (fst (fst st) ++ [Msg user prompt]) (2 # 10)
                                 max_tokens None]).
  split.
  - rewrite map_app, <- app_assoc. reflexivity.
  - rewrite length_app. simpl. lia.
Qed.

End AnsweredTrace.

Lemma requests_map_EvRequest reqs : requests (map EvRequest reqs) = reqs.
Proof. induction reqs as [|rq reqs IH]; simpl; congruence. Qed.

Lemma sleeps_map_EvRequest reqs : sleeps (map EvRequest reqs) = [].
Proof. induction reqs as [|rq reqs IH]; simpl; congruence. Qed.

(** X10: when the provider answers every request, a debate of [rounds]
    rounds returns after exactly [2 * rounds + 1] requests (one for
    [rounds <= 0]) and without any sleep. *)
Theorem debate_answered_at_once provider json_loads topic model rounds w :
  (forall history, exists t, read_response (provider history) = Ok t) ->
  exists r w',
    DebateEval.run_single_debate provider json_loads topic model rounds w = (Ok r, w') /\
    Z.of_nat (List.length (requests w'))
    = (Z.of_nat (List.length (requests w)) + 2 * Z.max 0 rounds + 1)%Z /\
    sleeps w' = sleeps w.
Proof.
  intros Hanswers.
  destruct (@run_skeleton_answered_trace provider Hanswers _
              DebateEval.pro_instruction DebateEval.con_instruction (7 # 10) model
              [DebateEval.system_message topic] DebateEval.judge_prompt (Some 128%Z)
              (DebateEval.debate_outcome json_loads) (Z.to_nat rounds) w)
    as (r & reqs & Hrun & Hlen).
  { intros raw messages. rewrite debate_outcome_eq. eauto. }
  exists r, (w ++ map EvRequest reqs). split; [exact Hrun|]. split.
  - rewrite requests_app, requests_map_EvRequest, length_app. lia.
  - now rewrite sleeps_app, sleeps_map_EvRequest, app_nil_r.
Qed.

Lemma debate_answered_at_once_witness :
  exists r w',
    DebateEval.run_single_debate polite PyJson.loads mars gpt 1 [] = (Ok r, w') /\
    Z.of_nat (List.length (requests w'))
    = (Z.of_nat (List.length (requests [])) + 2 * Z.max 0 1 + 1)%Z /\
    sleeps w' = sleeps [].
Proof.
  apply (@debate_answered_at_once polite PyJson.loads mars gpt 1 []).
  intros history. exists noted. unfold polite, scripted.
  destruct (List.length history - 1)%nat; reflexivity.
Defined.

(** ** The batch drivers *)









(** The batch of three runs: one win, two runs completed, three records. *)
Example debate_batch_tally :
  DebateEval.wins (fst debate_batch) = 1%Z /\
  DebateEval.completed (fst debate_batch) = 2%Z /\
  map DebateEval.winner (DebateEval.results_jsonl (fst debate_batch))
  = [JStr (u "pro"); JNull; JStr (u "tie")] /\
  map (fun r => List.length (DebateEval.transcript r))
      (DebateEval.results_jsonl (fst debate_batch))
  = [2; 0; 2]%nat.
Proof. vm_compute. repeat split. Qed.






(** ** The back-compatible fields of [debate_nojudge.save_run_log] *)

Lemma truthy_py_or a b : truthy b = true -> truthy (py_or a b) = true.
Proof. intros Hb. unfold py_or. destruct (truthy a) eqn:Ha; assumption. Qed.

Lemma py_or_truthy a b : truthy a = true -> py_or a b = a.
Proof. intros Ha. unfold py_or. now rewrite Ha. Qed.

Lemma back_compat_winner py_format agreed agreement_obj :
  fst (DebateNojudge.back_compat py_format agreed agreement_obj)
  = match agreed with
    | Some true => u "agree"
    | _ => u "none"
    end.
Proof. unfold DebateNojudge.back_compat. destruct agreed as [[|]|]; reflexivity. Qed.

(** X14: the back-compatible fields.  The winner written to the record is
    ["agree"] exactly when the mediator's [agreed] is the boolean [True],
    and ["none"] otherwise; the rationale written is never empty; and a
    mediator rationale that is not empty is written as it is. *)
Theorem back_compat_fields py_format agreed agreement_obj :
  (fst (DebateNojudge.back_compat py_format agreed agreement_obj) = u "agree"
   <-> agreed = Some true) /\
  (agreed <> Some true ->
   fst (DebateNojudge.back_compat py_format agreed agreement_obj) = u "none") /\
  truthy (snd (DebateNojudge.back_compat py_format agreed agreement_obj)) = true /\
  (forall d,
      agreement_obj = Some d ->
      truthy (dict_get d (u "rationale")) = true ->
      snd (DebateNojudge.back_compat py_format agreed agreement_obj)
      = dict_get d (u "rationale")).
Proof.
  split; [|split; [|split]].
  - rewrite back_compat_winner. destruct agreed as [[|]|]; split;
      try reflexivity; try discriminate; intros H; vm_compute in H; discriminate.
  - rewrite back_compat_winner. destruct agreed as [[|]|]; try reflexivity.
    intros H. now contradiction H.
  - unfold DebateNojudge.back_compat. destruct agreed as [[|]|]; simpl snd;
      apply truthy_py_or.
    + match goal with |- context [if ?c then _ else _] => destruct c end.
      * reflexivity.
      * reflexivity.
    + reflexivity.
    + reflexivity.
  - intros d -> Htruthy. unfold DebateNojudge.back_compat.
    rewrite (py_or_truthy (JStr []) Htruthy).
    destruct agreed as [[|]|]; simpl snd; now apply py_or_truthy.
Qed.

(** The fallbacks of the rationale, on concrete mediations. *)
Example back_compat_fallbacks :
  DebateNojudge.back_compat PyJson.str_of_scalar (Some true)
                            (Some [(u "agreed", JBool true);
                                   (u "decision", JStr (u "Go in 2040."))])
  = (u "agree", JStr (u "Agreement reached. Decision: Go in 2040.")) /\
  DebateNojudge.back_compat PyJson.str_of_scalar (Some true)
                            (Some [(u "agreed", JBool true)])
  = (u "agree", JStr (u "Agreement reached.")) /\
  DebateNojudge.back_compat PyJson.str_of_scalar (Some false)
                            (Some [(u "agreed", JBool false)])
  = (u "none", JStr (u "No agreement.")) /\
  DebateNojudge.back_compat PyJson.str_of_scalar None None
  = (u "none", JStr (u "Agreement status unknown.")).
Proof. vm_compute. repeat split. Qed.






(** The batch of three sessions: one agreement, two sessions completed. *)
Example alignment_batch_tally :
  DebateNojudge.agreements (fst alignment_batch) = 1%Z /\
  DebateNojudge.completed (fst alignment_batch) = 2%Z /\
  map DebateNojudge.winner (DebateNojudge.results_jsonl (fst alignment_batch))
  = [u "agree"; u "none"; u "none"] /\
  map DebateNojudge.agreed (DebateNojudge.results_jsonl (fst alignment_batch))
  = [Some true; None; None] /\
  alignment_rate (fst alignment_batch) = Some (1 / 2).
Proof. vm_compute. repeat split. Qed.



(** ** [run_matrix] *)

Lemma commands_app w1 w2 :
  RunMatrix.commands (w1 ++ w2) = RunMatrix.commands w1 ++ RunMatrix.commands w2.
Proof.
  induction w1 as [|[c|p] w1 IH]; simpl; [reflexivity| |assumption].
  now rewrite IH.
Qed.

Lemma commands_command_events PAUSE_BETWEEN cmds :
  RunMatrix.commands (flat_map (command_events PAUSE_BETWEEN) cmds) = cmds.
Proof.
  induction cmds as [|c cmds IH]; [reflexivity|].
  cbn [flat_map]. rewrite commands_app, IH. unfold command_events.
  destruct (Qeq_bool PAUSE_BETWEEN 0); reflexivity.
Qed.

Lemma pause_nonneg PAUSE_BETWEEN w :
  0 <= PAUSE_BETWEEN ->
  RunMatrix.pause PAUSE_BETWEEN w
  = Some (w ++ (if Qeq_bool PAUSE_BETWEEN 0 then []
                else [RunMatrix.EvPause PAUSE_BETWEEN])).
Proof.
  intros Hp. unfold RunMatrix.pause. destruct (Qeq_bool PAUSE_BETWEEN 0).
  - now rewrite app_nil_r.
  - apply Qle_bool_iff in Hp. now rewrite Hp.
Qed.

Section MatrixFacts.

Variables GLOBAL_ROUNDS GLOBAL_RUNS : Z.
Variable TESTS : list RunMatrix.Row.
Variable PAUSE_BETWEEN : Q.
Variable shell : list str -> Z.
Hypothesis pause_nonnegative : 0 <= PAUSE_BETWEEN.

Lemma tests_loop_all script tests :
  forall total w,
    RunMatrix.tests_loop GLOBAL_ROUNDS GLOBAL_RUNS false PAUSE_BETWEEN shell
                         script tests total w
    = (RunMatrix.Continue (total + Z.of_nat (List.length tests)),
       w ++ flat_map (command_events PAUSE_BETWEEN)
                     (map (RunMatrix.command GLOBAL_ROUNDS GLOBAL_RUNS script) tests)).
Proof.
  induction tests as [|t tests IH]; intros total w.
  - simpl. now rewrite Z.add_0_r, app_nil_r.
  - cbn [RunMatrix.tests_loop]. rewrite andb_false_r.
    rewrite (pause_nonneg _ pause_nonnegative), IH.
    cbn [map flat_map]. unfold command_events at 2.
    rewrite <- !app_assoc. cbn [app].
    f_equal. f_equal. cbn [List.length]. lia.
Qed.

Lemma scripts_loop_all scripts :
  forall total w,
    RunMatrix.scripts_loop GLOBAL_ROUNDS GLOBAL_RUNS TESTS false PAUSE_BETWEEN shell
                           scripts total w
    = (RunMatrix.Continue
         (total + Z.of_nat (List.length scripts * List.length TESTS)),
       w ++ flat_map (command_events PAUSE_BETWEEN)
                     (all_commands GLOBAL_ROUNDS GLOBAL_RUNS scripts TESTS)).
Proof.
  induction scripts as [|script scripts IH]; intros total w.
  - simpl. now rewrite Z.add_0_r, app_nil_r.
  - cbn [RunMatrix.scripts_loop]. rewrite tests_loop_all, IH.
    unfold all_commands. cbn [flat_map]. rewrite flat_map_app, <- app_assoc.
    f_equal. f_equal. simpl List.length. lia.
Qed.

Lemma tests_loop_stops script tests :
  forall total w,
    stops_at_first_failure
      shell (RunMatrix.commands w)
      (map (RunMatrix.command GLOBAL_ROUNDS GLOBAL_RUNS script) tests) total
      (RunMatrix.tests_loop GLOBAL_ROUNDS GLOBAL_RUNS true PAUSE_BETWEEN shell
                            script tests total w).
Proof.
  induction tests as [|t tests IH]; intros total w.
  - exists 0%nat. simpl. rewrite app_nil_r.
    split; [lia|]. split; [reflexivity|]. split; [intros j Hj; lia|].
    split; [reflexivity|]. split; [lia|]. intros Hk. lia.
  - cbn [RunMatrix.tests_loop map]. rewrite andb_true_r.
    set (cmd := RunMatrix.command GLOBAL_ROUNDS GLOBAL_RUNS script t).
    rewrite commands_app. cbn [RunMatrix.commands].
    destruct (Z.eqb_spec (shell (RunMatrix.commands w ++ [cmd])) 0) as [Hrc|Hrc];
      cbn [negb].
    + rewrite (pause_nonneg _ pause_nonnegative).
      match goal with
      | |- stops_at_first_failure _ _ _ _ (RunMatrix.tests_loop _ _ _ _ _ _ _ ?t1 ?w1) =>
        destruct (IH t1 w1) as (k & Hk & Hcmds & Hzero & Hstep);
          assert (RunMatrix.commands w1 = RunMatrix.commands w ++ [cmd]) as Hw1
            by (rewrite !commands_app; cbn [RunMatrix.commands];
                destruct (Qeq_bool PAUSE_BETWEEN 0); simpl;
                now rewrite ?app_nil_r)
      end.
      rewrite Hw1 in Hcmds, Hzero, Hstep.
      exists (S k). cbn [List.length firstn].
      split; [lia|].
      split; [rewrite Hcmds, <- app_assoc; reflexivity|].
      split.
      * intros [|[|j]] Hj; [lia| |].
        -- simpl. assumption.
        -- cbn [firstn]. specialize (Hzero (S j)).
           rewrite <- app_assoc in Hzero. apply Hzero. lia.
      * match goal with
        | |- match fst ?res with _ => _ end => destruct (fst res) as [total'|rc|]
        end.
        -- destruct Hstep as (Hlen & Htotal & Hlast).
           split; [lia|]. split; [lia|]. intros _.
           destruct k as [|k]; [simpl; assumption|].
           rewrite <- app_assoc in Hlast. apply Hlast. lia.
        -- destruct Hstep as (Hpos & Hcode & Hne).
           split; [lia|]. rewrite <- app_assoc in Hcode. split; assumption.
        -- assumption.
    + exists 1%nat. cbn [fst snd List.length firstn].
      rewrite commands_app. cbn [RunMatrix.commands].
      split; [lia|]. split; [reflexivity|]. split; [intros j Hj; lia|].
      split; [lia|]. split; [reflexivity|assumption].
Qed.

Lemma stops_at_first_failure_app done cmds1 cmds2 total total1 w1 res :
  stops_at_first_failure shell done cmds1 total (RunMatrix.Continue total1, w1) ->
  stops_at_first_failure shell (RunMatrix.commands w1) cmds2 total1 res ->
  stops_at_first_failure shell done (cmds1 ++ cmds2) total res.
Proof.
  intros (k1 & Hk1 & Hcmds1 & Hzero1 & Hlen1 & Htotal1 & Hlast1)
         (k2 & Hk2 & Hcmds2 & Hzero2 & Hstep).
  cbn [fst snd] in *. subst k1.
  rewrite firstn_all in Hcmds1, Hlast1. rewrite Hcmds1 in Hcmds2, Hzero2, Hstep.
  assert (forall j, firstn (List.length cmds1 + j) (cmds1 ++ cmds2)
                    = cmds1 ++ firstn j cmds2) as Hfirstn.
  { intros j. rewrite firstn_app, firstn_all2 by lia.
    now replace (List.length cmds1 + j - List.length cmds1)%nat with j by lia. }
  exists (List.length cmds1 + k2)%nat.
  split; [rewrite length_app; lia|].
  split; [rewrite Hfirstn, Hcmds2, <- app_assoc; reflexivity|].
  assert (forall j, (1 <= j <= List.length cmds1)%nat ->
                    shell (done ++ firstn j (cmds1 ++ cmds2)) = 0%Z) as Hfirst.
  { intros j Hj. rewrite firstn_app.
    replace (j - List.length cmds1)%nat with 0%nat by lia. simpl. rewrite app_nil_r.
    destruct (Nat.eq_dec j (List.length cmds1)) as [->|Hne].
    - rewrite firstn_all. apply Hlast1. lia.
    - apply Hzero1. lia. }
  assert (forall j, (1 <= j)%nat ->
                    (j < k2 \/ (j <= k2 /\ shell (done ++ cmds1 ++ firstn k2 cmds2) = 0%Z))%nat ->
                    shell (done ++ firstn (List.length cmds1 + j) (cmds1 ++ cmds2)) = 0%Z)
    as Hsecond.
  { intros j Hj Hcase. rewrite Hfirstn.
    destruct (Nat.eq_dec j k2) as [->|Hne].
    - destruct Hcase as [Hlt|[_ Hz]]; [lia|assumption].
    - rewrite app_assoc. apply Hzero2. lia. }
  split.
  - intros j Hj. destruct (Nat.le_gt_cases j (List.length cmds1)) as [Hle|Hgt].
    + apply Hfirst. lia.
    + replace j with (List.length cmds1 + (j - List.length cmds1))%nat by lia.
      apply Hsecond; lia.
  - destruct (fst res) as [total'|rc|].
    + destruct Hstep as (Hlen2 & Htotal2 & Hlast2).
      split; [rewrite length_app; lia|]. split; [lia|].
      intros Hpos. destruct k2 as [|k2].
      * rewrite Nat.add_0_r. apply Hfirst. lia.
      * apply Hsecond; [lia|]. right. split; [lia|].
        rewrite app_assoc. apply Hlast2. lia.
    + destruct Hstep as (Hpos & Hcode & Hne).
      split; [lia|]. rewrite Hfirstn, app_assoc. split; assumption.
    + assumption.
Qed.

Lemma stops_at_first_failure_weaken done cmds1 cmds2 total rc w :
  stops_at_first_failure shell done cmds1 total (RunMatrix.Exit rc, w) ->
  stops_at_first_failure shell done (cmds1 ++ cmds2) total (RunMatrix.Exit rc, w).
Proof.
  intros (k & Hk & Hcmds & Hzero & Hpos & Hcode & Hne). cbn [fst snd] in *.
  assert (forall j, (j <= k)%nat -> firstn j (cmds1 ++ cmds2) = firstn j cmds1) as Hfirstn.
  { intros j Hj. rewrite firstn_app.
    replace (j - List.length cmds1)%nat with 0%nat by lia.
    simpl. now rewrite app_nil_r. }
  exists k. split; [rewrite length_app; lia|].
  split; [now rewrite Hfirstn by lia|].
  split; [intros j Hj; rewrite Hfirstn by lia; now apply Hzero|].
  cbn [fst]. split; [assumption|]. now rewrite Hfirstn by lia.
Qed.

Lemma scripts_loop_stops scripts :
  forall total w,
    stops_at_first_failure
      shell (RunMatrix.commands w)
      (all_commands GLOBAL_ROUNDS GLOBAL_RUNS scripts TESTS) total
      (RunMatrix.scripts_loop GLOBAL_ROUNDS GLOBAL_RUNS TESTS true PAUSE_BETWEEN shell
                              scripts total w).
Proof.
  induction scripts as [|script scripts IH]; intros total w.
  - exists 0%nat. simpl. rewrite app_nil_r.
    split; [lia|]. split; [reflexivity|]. split; [intros j Hj; lia|].
    split; [reflexivity|]. split; [lia|]. intros Hk. lia.
  - cbn [RunMatrix.scripts_loop]. unfold all_commands. cbn [flat_map].
    pose proof (tests_loop_stops script TESTS total w) as Htests.
    destruct (RunMatrix.tests_loop GLOBAL_ROUNDS GLOBAL_RUNS true PAUSE_BETWEEN shell
                                   script TESTS total w) as [[total1|rc|] w1].
    + eapply stops_at_first_failure_app; [exact Htests|]. apply IH.
    + now apply stops_at_first_failure_weaken.
    + destruct Htests as (k & _ & _ & _ & []).
Qed.

End MatrixFacts.

(** X17: with [STOP_ON_ERROR = False] and a pause that is not negative,
    [run_matrix.main] runs the command of every script and every row, in
    the order of the two loops, whatever the return codes; each command is
    followed by the pause when the pause is not zero; and the count it
    reports is the product of the two lengths. *)
Theorem run_matrix_runs_every_command
        GLOBAL_ROUNDS GLOBAL_RUNS SCRIPTS TESTS PAUSE_BETWEEN shell :
  0 <= PAUSE_BETWEEN ->
  RunMatrix.main GLOBAL_ROUNDS GLOBAL_RUNS SCRIPTS TESTS false PAUSE_BETWEEN shell
  = (RunMatrix.Done (Z.of_nat (List.length SCRIPTS * List.length TESTS)),
     flat_map (command_events PAUSE_BETWEEN)
              (all_commands GLOBAL_ROUNDS GLOBAL_RUNS SCRIPTS TESTS)) /\
  RunMatrix.commands
    (snd (RunMatrix.main GLOBAL_ROUNDS GLOBAL_RUNS SCRIPTS TESTS false
                         PAUSE_BETWEEN shell))
  = all_commands GLOBAL_ROUNDS GLOBAL_RUNS SCRIPTS TESTS.
Proof.
  intros Hp. unfold RunMatrix.main. rewrite (scripts_loop_all _ _ _ _ Hp).
  cbn [app snd]. split; [reflexivity|]. apply commands_command_events.
Qed.

Lemma run_matrix_runs_every_command_witness :
  RunMatrix.main 4 1 two_scripts RunMatrix.single_tests false (1 # 10) second_fails
  = (RunMatrix.Done (Z.of_nat (List.length two_scripts
                               * List.length RunMatrix.single_tests)),
     flat_map (command_events (1 # 10))
              (all_commands 4 1 two_scripts RunMatrix.single_tests)) /\
  RunMatrix.commands
    (snd (RunMatrix.main 4 1 two_scripts RunMatrix.single_tests false
                         (1 # 10) second_fails))
  = all_commands 4 1 two_scripts RunMatrix.single_tests.
Proof.
  apply (@run_matrix_runs_every_command 4 1 two_scripts RunMatrix.single_tests
                                        (1 # 10) second_fails).
  vm_compute. discriminate.
Defined.

(** X18: with [STOP_ON_ERROR = True] and a pause that is not negative,
    [run_matrix.main] runs the commands in the order of the two loops up
    to the first whose return code is not zero and exits with that code;
    when every return code is zero it runs them all and reports their
    number. *)
Theorem run_matrix_stops_at_first_failure
        GLOBAL_ROUNDS GLOBAL_RUNS SCRIPTS TESTS PAUSE_BETWEEN shell :
  0 <= PAUSE_BETWEEN ->
  let cmds := all_commands GLOBAL_ROUNDS GLOBAL_RUNS SCRIPTS TESTS in
  let res := RunMatrix.main GLOBAL_ROUNDS GLOBAL_RUNS SCRIPTS TESTS true
                            PAUSE_BETWEEN shell in
  exists k,
    (k <= List.length cmds)%nat /\
    RunMatrix.commands (snd res) = firstn k cmds /\
    (forall j, (1 <= j < k)%nat -> return_code shell cmds j = 0%Z) /\
    match fst res with
    | RunMatrix.Done total =>
      k = List.length cmds /\ total = Z.of_nat k /\
      ((1 <= k)%nat -> return_code shell cmds k = 0%Z)
    | RunMatrix.SystemExit rc =>
      (1 <= k)%nat /\ rc = return_code shell cmds k /\ rc <> 0%Z
    | RunMatrix.ValueError => False
    end.
Proof.
  intros Hp cmds res. subst cmds res. unfold RunMatrix.main, return_code.
  destruct (scripts_loop_stops GLOBAL_ROUNDS GLOBAL_RUNS TESTS shell Hp SCRIPTS 0 [])
    as (k & Hk & Hcmds & Hzero & Hstep).
  cbn [RunMatrix.commands app] in Hcmds, Hzero, Hstep.
  destruct (RunMatrix.scripts_loop GLOBAL_ROUNDS GLOBAL_RUNS TESTS true PAUSE_BETWEEN
                                   shell SCRIPTS 0 []) as [[total|rc|] w];
    cbn [fst snd] in *; exists k; repeat (split; [assumption|]); assumption.
Qed.

Lemma run_matrix_stops_at_first_failure_witness :
  exists k,
    (k <= List.length (all_commands 4 1 two_scripts RunMatrix.single_tests))%nat /\
    RunMatrix.commands
      (snd (RunMatrix.main 4 1 two_scripts RunMatrix.single_tests true
                           (1 # 10) second_fails))
    = firstn k (all_commands 4 1 two_scripts RunMatrix.single_tests) /\
    (forall j, (1 <= j < k)%nat ->
               return_code second_fails
                           (all_commands 4 1 two_scripts RunMatrix.single_tests) j
               = 0%Z) /\
    match fst (RunMatrix.main 4 1 two_scripts RunMatrix.single_tests true
                              (1 # 10) second_fails) with
    | RunMatrix.Done total =>
      k = List.length (all_commands 4 1 two_scripts RunMatrix.single_tests) /\
      total = Z.of_nat k /\
      ((1 <= k)%nat ->
       return_code second_fails
                   (all_commands 4 1 two_scripts RunMatrix.single_tests) k = 0%Z)
    | RunMatrix.SystemExit rc =>
      (1 <= k)%nat /\
      rc = return_code second_fails
                       (all_commands 4 1 two_scripts RunMatrix.single_tests) k /\
      rc <> 0%Z
    | RunMatrix.ValueError => False
    end.
Proof.
  apply (@run_matrix_stops_at_first_failure 4 1 two_scripts RunMatrix.single_tests
                                            (1 # 10) second_fails).
  vm_compute. discriminate.
Defined.

(** The two behaviours on a shell whose second command fails with code 2. *)
Example run_matrix_second_fails :
  fst (RunMatrix.main 4 1 two_scripts RunMatrix.single_tests false (1 # 10) second_fails)
  = RunMatrix.Done 2 /\
  fst (RunMatrix.main 4 1 two_scripts RunMatrix.single_tests true (1 # 10) second_fails)
  = RunMatrix.SystemExit 2 /\
  List.length (RunMatrix.commands
                 (snd (RunMatrix.main 4 1 two_scripts RunMatrix.single_tests true
                                      (1 # 10) second_fails))) = 2%nat.
Proof. vm_compute. repeat split. Qed.

(** [run_matrix_single.py], with its constants: one command, whatever its
    return code, and then the pause. *)
Example single_main_runs_one_command (shell : list str -> Z) :
  RunMatrix.single_main shell
  = (RunMatrix.Done 1,
     [RunMatrix.EvCommand
        (RunMatrix.command 4 1 (u "debate_nojudge.py")
                           (hd (RunMatrix.MkRow [] [] None None) RunMatrix.single_tests));
      RunMatrix.EvPause (1 # 10)]).
Proof.
  unfold RunMatrix.single_main, RunMatrix.main.
  rewrite scripts_loop_all by (unfold Qle; simpl; lia). reflexivity.
Qed.
